(** * cipherx-frontend: the transfer-time estimator and the probe orchestrator

    A shallow embedding of the two pieces of logic of the front end:
    - [Estimator]: [convertToBytes], [convertFromBytes], [calculateTime] and
      [handleEstimate] of the [FileTransferEstimator] component
      (components/calculator);
    - [Probe]: [fetchTest] and [fetchData] of the [NetworkTestApp] page
      (src/app/page.tsx).

    JavaScript numbers are modelled by [number]: the rationals extended with
    the two infinities and NaN.  Arithmetic is exact: the rounding of binary64
    is not modelled, and neither is the sign of zero: a zero divisor is taken
    to be +0 (this program divides by the constants 1024, 100 and 1000, by a
    difference of two clock readings, and by the speeds the user typed in;
    only a speed typed in as -0 would tell the difference).  Everything the
    JavaScript engine or the browser supplies and that the program does not
    define is gathered in the [Host] class. *)

From Stdlib Require Import QArith Qround Qabs Lqa ZArith Lia.
From Stdlib Require Import String Ascii Decimal DecimalString DecimalN.
From stdpp Require Import base option list strings gmap.

Local Open Scope string_scope.
Set Warnings "-register-all".

(** ** Numbers *)

Inductive number : Type :=
| Fin (q : Q)
| PosInf
| NegInf
| NaN.

Definition Qltb (a b : Q) : bool := negb (Qle_bool b a).

Definition Qsgn_inf (q : Q) : number :=
  if Qeq_bool q 0 then NaN else if Qltb 0 q then PosInf else NegInf.

Definition num_neg (x : number) : number :=
  match x with
  | Fin q => Fin (- q)%Q
  | PosInf => NegInf
  | NegInf => PosInf
  | NaN => NaN
  end.

Definition num_add (x y : number) : number :=
  match x, y with
  | NaN, _ | _, NaN => NaN
  | Fin a, Fin b => Fin (a + b)%Q
  | PosInf, NegInf | NegInf, PosInf => NaN
  | PosInf, _ | _, PosInf => PosInf
  | NegInf, _ | _, NegInf => NegInf
  end.

Definition num_sub (x y : number) : number := num_add x (num_neg y).

Definition num_mul (x y : number) : number :=
  match x, y with
  | NaN, _ | _, NaN => NaN
  | Fin a, Fin b => Fin (a * b)%Q
  | Fin a, PosInf | PosInf, Fin a => Qsgn_inf a
  | Fin a, NegInf | NegInf, Fin a => num_neg (Qsgn_inf a)
  | PosInf, PosInf | NegInf, NegInf => PosInf
  | PosInf, NegInf | NegInf, PosInf => NegInf
  end.

(** [x / y].  A finite dividend over zero is an infinity of the dividend's
    sign, [0 / 0] is NaN. *)
Definition num_div (x y : number) : number :=
  match x, y with
  | NaN, _ | _, NaN => NaN
  | Fin a, Fin b => if Qeq_bool b 0 then Qsgn_inf a else Fin (a / b)%Q
  | Fin _, _ => Fin 0
  | PosInf, Fin b => if Qltb b 0 then NegInf else PosInf
  | NegInf, Fin b => if Qltb b 0 then PosInf else NegInf
  | _, _ => NaN
  end.

(** [x >= y]: false as soon as one side is NaN. *)
Definition num_geb (x y : number) : bool :=
  match x, y with
  | NaN, _ | _, NaN => false
  | Fin a, Fin b => Qle_bool b a
  | PosInf, _ => true
  | _, NegInf => true
  | _, _ => false
  end.

(** [x === y] on numbers: NaN is equal to nothing, itself included. *)
Definition strict_eq (x y : number) : Prop :=
  match x, y with
  | Fin a, Fin b => (a == b)%Q
  | PosInf, PosInf | NegInf, NegInf => True
  | _, _ => False
  end.

(** [x < y] and [x <= y] on numbers, false when one side is NaN. *)
Definition num_lt (x y : number) : Prop :=
  match x, y with
  | NaN, _ | _, NaN => False
  | Fin a, Fin b => (a < b)%Q
  | NegInf, Fin _ | NegInf, PosInf | Fin _, PosInf => True
  | _, _ => False
  end.

Definition num_le (x y : number) : Prop := num_lt x y \/ strict_eq x y.

(** [|x - y| <= tol] on finite numbers. *)
Definition within (tol : Q) (x y : number) : Prop :=
  match x, y with
  | Fin a, Fin b => (Qabs (a - b) <= tol)%Q
  | _, _ => False
  end.

Definition of_Z (z : Z) : number := Fin (inject_Z z).

Declare Scope num_scope.
Delimit Scope num_scope with num.
Bind Scope num_scope with number.
Infix "+" := num_add : num_scope.
Infix "-" := num_sub : num_scope.
Infix "*" := num_mul : num_scope.
Infix "/" := num_div : num_scope.
Infix ">=?" := num_geb (at level 70) : num_scope.
Infix "===" := strict_eq (at level 70) : num_scope.

(** ** Decimal text *)

Definition show_Z (z : Z) : string := NilZero.string_of_int (Z.to_int z).
Definition show_N (n : N) : string := NilZero.string_of_uint (N.to_uint n).

Definition digit_of_ascii (c : ascii) : option (uint -> uint) :=
  match c with
  | "0"%char => Some D0 | "1"%char => Some D1 | "2"%char => Some D2
  | "3"%char => Some D3 | "4"%char => Some D4 | "5"%char => Some D5
  | "6"%char => Some D6 | "7"%char => Some D7 | "8"%char => Some D8
  | "9"%char => Some D9
  | _ => None
  end.

Definition ascii_of_digit (d : Z) : ascii :=
  match d with
  | 0%Z => "0" | 1%Z => "1" | 2%Z => "2" | 3%Z => "3" | 4%Z => "4"
  | 5%Z => "5" | 6%Z => "6" | 7%Z => "7" | 8%Z => "8" | _ => "9"
  end%char.

(** The longest prefix of decimal digits, and what follows it. *)
Fixpoint read_digits (s : string) : uint * string :=
  match s with
  | EmptyString => (Nil, EmptyString)
  | String c r =>
      match digit_of_ascii c with
      | Some d => let '(ds, rest) := read_digits r in (d ds, rest)
      | None => (Nil, s)
      end
  end.

(** The last [f] decimal digits of [m], most significant first. *)
Fixpoint frac_digits (f : nat) (m : Z) : string :=
  match f with
  | O => EmptyString
  | S f' => String (ascii_of_digit ((m / 10 ^ Z.of_nat f') mod 10)%Z) (frac_digits f' m)
  end.

(** ** The host: what the engine and the browser supply *)

Class Host : Type := {
  (** Number::toString on a finite number. *)
  number_to_string : Q -> string;
  (** StringToNumber, the conversion applied to a string operand of an
      arithmetic operator. *)
  string_to_number : string -> number;
  (** The message of the TypeError raised by reading property [k] of null. *)
  null_property_message : string -> string;
  (** [new Date(t).toLocaleTimeString("en-US")] for [t] milliseconds. *)
  toLocaleTimeString : Z -> string;
}.

Section Numbers.
Context `{Host}.

(** Number.prototype.toString. *)
Definition num_to_string (x : number) : string :=
  match x with
  | Fin q => number_to_string q
  | PosInf => "Infinity"
  | NegInf => "-Infinity"
  | NaN => "NaN"
  end.

(** The integer [n] for which [n / 10^f - q] is as close to zero as possible,
    the larger one when there are two (for [q >= 0]). *)
Definition round_scaled (f : nat) (q : Q) : Z :=
  Qfloor (q * inject_Z (10 ^ Z.of_nat f) + (1 # 2))%Q.

Definition fixed_digits (f : nat) (n : Z) : string :=
  show_N (Z.to_N (n / 10 ^ Z.of_nat f)%Z) ++
  match f with
  | O => EmptyString
  | S _ => String "." (frac_digits f n)
  end.

(** Number.prototype.toFixed(f): NaN prints as "NaN"; a number of magnitude
    10^21 or more prints as Number::toString does; a negative number prints
    as "-" followed by its opposite. *)
Definition toFixed (f : nat) (x : number) : string :=
  match x with
  | Fin q =>
      if Qle_bool (inject_Z (10 ^ 21)%Z) (Qabs q) then number_to_string q
      else if Qltb q 0 then String "-" (fixed_digits f (round_scaled f (- q)%Q))
      else fixed_digits f (round_scaled f q)
  | _ => num_to_string x
  end.

End Numbers.

(** ** parseFloat *)

(** The white space and line terminators of the ASCII range. *)
Definition is_white_space (c : ascii) : bool :=
  match c with
  | " "%char | "009"%char | "010"%char | "011"%char | "012"%char | "013"%char => true
  | _ => false
  end.

Fixpoint trim_start (s : string) : string :=
  match s with
  | String c r => if is_white_space c then trim_start r else s
  | EmptyString => EmptyString
  end.

Definition strip_prefix (p s : string) : option string :=
  if String.prefix p s
  then Some (String.substring (String.length p) (String.length s - String.length p) s)
  else None.

(** The exponent part [e], [e+] or [e-] followed by digits; it is read only
    when at least one digit follows. *)
Definition read_exponent (s : string) : Z :=
  match s with
  | String c r =>
      if (Ascii.eqb c "e" || Ascii.eqb c "E")%bool then
        match r with
        | String "-" r' =>
            match read_digits r' with
            | (Nil, _) => 0%Z
            | (ds, _) => (- Z.of_uint ds)%Z
            end
        | String "+" r' => Z.of_uint (fst (read_digits r'))
        | _ => Z.of_uint (fst (read_digits r))
        end
      else 0%Z
  | EmptyString => 0%Z
  end.

(** The value of the longest prefix of [s] that is an unsigned
    StrDecimalLiteral other than Infinity, NaN when there is none. *)
Definition read_decimal (s : string) : number :=
  let '(ip, r1) := read_digits s in
  let '(fp, r2) :=
    match r1 with
    | String "." r => read_digits r
    | _ => (Nil, r1)
    end in
  match ip, fp with
  | Nil, Nil => NaN
  | _, _ =>
      Fin ((inject_Z (Z.of_uint ip)
            + inject_Z (Z.of_uint fp) / inject_Z (10 ^ Z.of_nat (nb_digits fp)))
           * Qpower 10 (read_exponent r2))%Q
  end.

Definition read_unsigned (s : string) : number :=
  match strip_prefix "Infinity" s with
  | Some _ => PosInf
  | None => read_decimal s
  end.

(** parseFloat on a string: leading white space is skipped, then the longest
    prefix that is a decimal literal is read; what follows it is ignored. *)
Definition parseFloat (s : string) : number :=
  match trim_start s with
  | String "-" r => num_neg (read_unsigned r)
  | String "+" r => read_unsigned r
  | r => read_unsigned r
  end.

(** * The transfer-time estimator (components/calculator) *)

Module Estimator.

Inductive FileUnit : Type := bytes | KB | MB | GB | TB.

Definition units : list FileUnit := [bytes; KB; MB; GB; TB].

Definition unitSizes (u : FileUnit) : number :=
  match u with
  | bytes => Fin 1
  | KB => Fin 1024
  | MB => Fin (1024 * 1024)
  | GB => Fin (1024 * 1024 * 1024)
  | TB => Fin (1024 * 1024 * 1024 * 1024)
  end.

Record FileData : Type := {
  fd_name : string;
  fd_size : number;
  fd_unit : FileUnit;
  fd_type : string;
}.

(** What [convertFromBytes] returns: [{ size, unit }]. *)
Record Converted : Type := {
  cv_size : number;
  cv_unit : FileUnit;
}.

Inductive ConnectionType : Type := wifi | ethernet.
Inductive TransferType : Type := direct | p2p.

(** The state of the component that [handleEstimate] reads and writes. *)
Record EstimatorState : Type := {
  files : list FileData;
  downloadSpeed : number;
  uploadSpeed : number;
  compressionEnabled : bool;
  compressionRate : number;
  downloadTime : number;
  uploadTime : number;
  networkLatency : number;
  cloudProvider : string;
  cloudUploadTime : number;
  isVpnEnabled : bool;
  connectionType : ConnectionType;
  transferType : TransferType;
}.

Definition cloudSpeedFactors : gmap string number :=
  list_to_map
    [("none", Fin 1); ("google-drive", Fin 0.9); ("aws-s3", Fin 1.1); ("onedrive", Fin 0.95)].

Section Functions.
Context `{Host}.

Definition convertToBytes (size : number) (unit : FileUnit) : number :=
  (size * unitSizes unit)%num.

(** The loop of [convertFromBytes]:
    [while (size >= 1024 && unitIndex < units.length - 1) { size /= 1024; unitIndex++ }].
    [fuel] bounds the number of iterations; [length units] is enough
    (lemma [convert_loop_fuel]). *)
Fixpoint convert_loop (fuel : nat) (size : number) (unitIndex : nat) : number * nat :=
  match fuel with
  | O => (size, unitIndex)
  | S fuel' =>
      if ((size >=? Fin 1024)%num && (unitIndex <? length units - 1)%nat)%bool
      then convert_loop fuel' (size / Fin 1024)%num (S unitIndex)
      else (size, unitIndex)
  end.

Definition convertFromBytes (bytes_ : number) : Converted :=
  let '(size, unitIndex) := convert_loop (length units) bytes_ 0 in
  {| cv_size := parseFloat (toFixed 2 size); cv_unit := nth unitIndex units bytes |}.

Definition calculateTime (size speed : number) : number :=
  ((size * Fin 8) / (speed * Fin 1024 * Fin 1024))%num.

Definition calculateTimeWithLatency (st : EstimatorState) (size speed : number) : number :=
  let baseTime := calculateTime size speed in
  (baseTime + networkLatency st / Fin 1000)%num.

(** [uploadSpeed * cloudSpeedFactors[cloudProvider]]: a provider that is not
    a key of the table gives [undefined], and the product is NaN. *)
Definition estimateCloudUploadTime (st : EstimatorState) (size : number) : number :=
  let effectiveSpeed :=
    match cloudSpeedFactors !! cloudProvider st with
    | Some factor => (uploadSpeed st * factor)%num
    | None => NaN
    end in
  calculateTimeWithLatency st size effectiveSpeed.

(** [files.reduce((sum, file) => sum + convertToBytes(file.size, file.unit), 0)] *)
Definition totalSize (fs : list FileData) : number :=
  fold_left (fun sum file => (sum + convertToBytes (fd_size file) (fd_unit file))%num) fs (Fin 0).

Definition compressedSize (st : EstimatorState) : number :=
  let totalSizeBytes := totalSize (files st) in
  if compressionEnabled st
  then (totalSizeBytes * (Fin 1 - compressionRate st / Fin 100))%num
  else totalSizeBytes.

Definition effectiveSpeed (st : EstimatorState) (speed : number) : number :=
  let speed := if isVpnEnabled st then (speed * Fin 0.9)%num else speed in
  let speed := match connectionType st with ethernet => (speed * Fin 1.2)%num | wifi => speed end in
  let speed := match transferType st with p2p => (speed * Fin 0.8)%num | direct => speed end in
  speed.

Definition handleEstimate (st : EstimatorState) : EstimatorState :=
  let totalSizeBytes := compressedSize st in
  let finalSize := cv_size (convertFromBytes totalSizeBytes) in
  let effectiveDownloadSpeed := effectiveSpeed st (downloadSpeed st) in
  let effectiveUploadSpeed := effectiveSpeed st (uploadSpeed st) in
  let downloadTimeValue := calculateTimeWithLatency st finalSize effectiveDownloadSpeed in
  let uploadTimeValue := calculateTimeWithLatency st finalSize effectiveUploadSpeed in
  let cloudUploadTimeValue := estimateCloudUploadTime st finalSize in
  {| files := files st;
     downloadSpeed := downloadSpeed st;
     uploadSpeed := uploadSpeed st;
     compressionEnabled := compressionEnabled st;
     compressionRate := compressionRate st;
     downloadTime := downloadTimeValue;
     uploadTime := uploadTimeValue;
     networkLatency := networkLatency st;
     cloudProvider := cloudProvider st;
     cloudUploadTime := cloudUploadTimeValue;
     isVpnEnabled := isVpnEnabled st;
     connectionType := connectionType st;
     transferType := transferType st |}.

(** The state of the component when it is mounted (the [useState] defaults). *)
Definition initialState : EstimatorState :=
  {| files := [];
     downloadSpeed := Fin 1;
     uploadSpeed := Fin 2;
     compressionEnabled := false;
     compressionRate := Fin 50;
     downloadTime := Fin 0;
     uploadTime := Fin 0;
     networkLatency := Fin 50;
     cloudProvider := "none";
     cloudUploadTime := Fin 0;
     isVpnEnabled := false;
     connectionType := wifi;
     transferType := direct |}.

End Functions.
(** The setters of the component state. *)
Definition setFiles (v : list FileData) (st : EstimatorState) : EstimatorState :=
  {| files := v; downloadSpeed := downloadSpeed st; uploadSpeed := uploadSpeed st;
     compressionEnabled := compressionEnabled st; compressionRate := compressionRate st;
     downloadTime := downloadTime st; uploadTime := uploadTime st;
     networkLatency := networkLatency st; cloudProvider := cloudProvider st;
     cloudUploadTime := cloudUploadTime st; isVpnEnabled := isVpnEnabled st;
     connectionType := connectionType st; transferType := transferType st |}.

Definition setDownloadSpeed (v : number) (st : EstimatorState) : EstimatorState :=
  {| files := files st; downloadSpeed := v; uploadSpeed := uploadSpeed st;
     compressionEnabled := compressionEnabled st; compressionRate := compressionRate st;
     downloadTime := downloadTime st; uploadTime := uploadTime st;
     networkLatency := networkLatency st; cloudProvider := cloudProvider st;
     cloudUploadTime := cloudUploadTime st; isVpnEnabled := isVpnEnabled st;
     connectionType := connectionType st; transferType := transferType st |}.

Definition setUploadSpeed (v : number) (st : EstimatorState) : EstimatorState :=
  {| files := files st; downloadSpeed := downloadSpeed st; uploadSpeed := v;
     compressionEnabled := compressionEnabled st; compressionRate := compressionRate st;
     downloadTime := downloadTime st; uploadTime := uploadTime st;
     networkLatency := networkLatency st; cloudProvider := cloudProvider st;
     cloudUploadTime := cloudUploadTime st; isVpnEnabled := isVpnEnabled st;
     connectionType := connectionType st; transferType := transferType st |}.

Definition setCompressionEnabled (v : bool) (st : EstimatorState) : EstimatorState :=
  {| files := files st; downloadSpeed := downloadSpeed st; uploadSpeed := uploadSpeed st;
     compressionEnabled := v; compressionRate := compressionRate st;
     downloadTime := downloadTime st; uploadTime := uploadTime st;
     networkLatency := networkLatency st; cloudProvider := cloudProvider st;
     cloudUploadTime := cloudUploadTime st; isVpnEnabled := isVpnEnabled st;
     connectionType := connectionType st; transferType := transferType st |}.

Definition setCompressionRate (v : number) (st : EstimatorState) : EstimatorState :=
  {| files := files st; downloadSpeed := downloadSpeed st; uploadSpeed := uploadSpeed st;
     compressionEnabled := compressionEnabled st; compressionRate := v;
     downloadTime := downloadTime st; uploadTime := uploadTime st;
     networkLatency := networkLatency st; cloudProvider := cloudProvider st;
     cloudUploadTime := cloudUploadTime st; isVpnEnabled := isVpnEnabled st;
     connectionType := connectionType st; transferType := transferType st |}.

Definition setNetworkLatency (v : number) (st : EstimatorState) : EstimatorState :=
  {| files := files st; downloadSpeed := downloadSpeed st; uploadSpeed := uploadSpeed st;
     compressionEnabled := compressionEnabled st; compressionRate := compressionRate st;
     downloadTime := downloadTime st; uploadTime := uploadTime st;
     networkLatency := v; cloudProvider := cloudProvider st;
     cloudUploadTime := cloudUploadTime st; isVpnEnabled := isVpnEnabled st;
     connectionType := connectionType st; transferType := transferType st |}.

Definition setCloudProvider (v : string) (st : EstimatorState) : EstimatorState :=
  {| files := files st; downloadSpeed := downloadSpeed st; uploadSpeed := uploadSpeed st;
     compressionEnabled := compressionEnabled st; compressionRate := compressionRate st;
     downloadTime := downloadTime st; uploadTime := uploadTime st;
     networkLatency := networkLatency st; cloudProvider := v;
     cloudUploadTime := cloudUploadTime st; isVpnEnabled := isVpnEnabled st;
     connectionType := connectionType st; transferType := transferType st |}.

Definition setIsVpnEnabled (v : bool) (st : EstimatorState) : EstimatorState :=
  {| files := files st; downloadSpeed := downloadSpeed st; uploadSpeed := uploadSpeed st;
     compressionEnabled := compressionEnabled st; compressionRate := compressionRate st;
     downloadTime := downloadTime st; uploadTime := uploadTime st;
     networkLatency := networkLatency st; cloudProvider := cloudProvider st;
     cloudUploadTime := cloudUploadTime st; isVpnEnabled := v;
     connectionType := connectionType st; transferType := transferType st |}.

Definition setConnectionType (v : ConnectionType) (st : EstimatorState) : EstimatorState :=
  {| files := files st; downloadSpeed := downloadSpeed st; uploadSpeed := uploadSpeed st;
     compressionEnabled := compressionEnabled st; compressionRate := compressionRate st;
     downloadTime := downloadTime st; uploadTime := uploadTime st;
     networkLatency := networkLatency st; cloudProvider := cloudProvider st;
     cloudUploadTime := cloudUploadTime st; isVpnEnabled := isVpnEnabled st;
     connectionType := v; transferType := transferType st |}.

Definition setTransferType (v : TransferType) (st : EstimatorState) : EstimatorState :=
  {| files := files st; downloadSpeed := downloadSpeed st; uploadSpeed := uploadSpeed st;
     compressionEnabled := compressionEnabled st; compressionRate := compressionRate st;
     downloadTime := downloadTime st; uploadTime := uploadTime st;
     networkLatency := networkLatency st; cloudProvider := cloudProvider st;
     cloudUploadTime := cloudUploadTime st; isVpnEnabled := isVpnEnabled st;
     connectionType := connectionType st; transferType := v |}.

(** The position of a unit in [units]: a larger index is a coarser unit. *)
Definition unitIndex (u : FileUnit) : nat :=
  match u with
  | bytes => 0
  | KB => 1
  | MB => 2
  | GB => 3
  | TB => 4
  end.

(** The number of bytes of one unit, as a rational. *)
Definition unitBytes (u : FileUnit) : Q := (1024 ^ Z.of_nat (unitIndex u))%Q.

(** A file of the given size and unit. *)
Definition file_of (size : number) (unit : FileUnit) : FileData :=
  {| fd_name := "file"; fd_size := size; fd_unit := unit; fd_type := "" |}.

End Estimator.

(** * The probe orchestrator (src/app/page.tsx) *)

Module Probe.

(** ** JSON values and the conversions JavaScript applies to them *)

Inductive Json : Type :=
| JNull
| JBool (b : bool)
| JNum (q : Q)
| JStr (s : string)
| JArr (items : list Json)
| JObj (members : list (string * Json)).

(** The value of a property read: [None] is [undefined]. *)
Definition JsValue : Type := option Json.

(** The members of a parsed object in source order; a later duplicate of a
    name replaces an earlier one. *)
Fixpoint member (key : string) (members : list (string * Json)) : JsValue :=
  match members with
  | [] => None
  | (k, v) :: rest =>
      match member key rest with
      | Some v' => Some v'
      | None => if String.eqb k key then Some v else None
      end
  end.

(** [data[key]] on a value other than [null].  The keys this program reads
    (the probe keys, [error] and [uploadTime]) are not properties of the
    prototypes of strings, numbers, booleans, arrays or objects, so only the
    members of a parsed object are found. *)
Definition property (data : Json) (key : string) : JsValue :=
  match data with
  | JObj members => member key members
  | _ => None
  end.

(** ToBoolean, as applied by [||]. *)
Definition truthy (v : JsValue) : bool :=
  match v with
  | None | Some JNull => false
  | Some (JBool b) => b
  | Some (JNum q) => negb (Qeq_bool q 0)
  | Some (JStr s) => negb (String.eqb s "")
  | Some (JArr _) | Some (JObj _) => true
  end.

Section Conversions.
Context `{Host}.

(** ToString, as applied by a template literal and by [parseFloat]. *)
Fixpoint json_to_string (j : Json) : string :=
  match j with
  | JNull => "null"
  | JBool true => "true"
  | JBool false => "false"
  | JNum q => number_to_string q
  | JStr s => s
  | JArr items =>
      (fix join (l : list Json) : string :=
         match l with
         | [] => ""
         | [x] => match x with JNull => "" | _ => json_to_string x end
         | x :: rest =>
             (match x with JNull => "" | _ => json_to_string x end) ++ "," ++ join rest
         end) items
  | JObj _ => "[object Object]"
  end.

Definition to_string (v : JsValue) : string :=
  match v with
  | None => "undefined"
  | Some j => json_to_string j
  end.

(** ToNumber, as applied to an operand of [/]. *)
Definition to_number (v : JsValue) : number :=
  match v with
  | None => NaN
  | Some JNull => Fin 0
  | Some (JBool b) => if b then Fin 1 else Fin 0
  | Some (JNum q) => Fin q
  | Some (JStr s) => string_to_number s
  | Some j => string_to_number (json_to_string j)
  end.

End Conversions.

(** ** The network and the clock *)

Inductive Request : Type :=
| GET (url : string)
  (** [fetch(url, { method: "POST", body: formData, headers: { "x-start-time": t } })]
      where the form has the one field [file]. *)
| POST (url : string) (x_start_time : string) (file : list Byte.byte).

Definition request_url (r : Request) : string :=
  match r with
  | GET url | POST url _ _ => url
  end.

(** A response body read chunk by chunk: [reader.read()] yields the chunks in
    turn, then either reports [done] or rejects. *)
Record Stream : Type := {
  chunks : list (list Byte.byte);
  failure : option string;
}.

(** What [response.json()] settles to. *)
Inductive JsonResult : Type :=
| Parsed (data : Json)
| Unparsable (message : string).

(** A response as this program observes it. *)
Record Response : Type := {
  ok : bool;
  status : Z;
  statusText : string;
  content_length : option string;
  body : option Stream;
  json : JsonResult;
}.

Inductive FetchResult : Type :=
| Rejected (message : string)
| Fulfilled (response : Response).

(** The environment of one run.  [respond r n] is what the [n]-th request
    (counting from 0) to the URL of [r] settles to; [clock n] is the [n]-th
    reading of the clock. *)
Record World : Type := {
  NEXT_PUBLIC_API_URL : option string;
  window_defined : bool;
  respond : Request -> nat -> FetchResult;
  clock : nat -> Z;
}.

Definition API_URL (w : World) : string :=
  match NEXT_PUBLIC_API_URL w with
  | Some url => if String.eqb url "" then "http://backend.themsovietbois.com:3001/" else url
  | None => "http://backend.themsovietbois.com:3001/"
  end.

(** ** The state of the component *)

Record HistoryEntry : Type := {
  timestamp : string;
  ping : number;
  download : number;
  upload : number;
}.

(** [results], [loading], [progress] and [history] are the state of
    [NetworkTestApp]; [requests] and [clock_reads] record the requests sent
    and the number of clock readings taken so far. *)
Record State : Type := {
  results : gmap string Json;
  loading : bool;
  progress : number;
  history : list HistoryEntry;
  requests : list Request;
  clock_reads : nat;
}.

Definition initialState : State :=
  {| results := ∅; loading := true; progress := Fin 0; history := [];
     requests := []; clock_reads := 0 |}.

(** ** Asynchronous functions: a state and exception monad *)

Inductive Completion (A : Type) : Type :=
| Normal (a : A)
| Throw (message : string).
Arguments Normal {A} a.
Arguments Throw {A} message.

Definition M (A : Type) : Type := World -> State -> Completion A * State.

Definition ret {A} (a : A) : M A := fun _ st => (Normal a, st).

Definition bind {A B} (m : M A) (k : A -> M B) : M B :=
  fun w st =>
    match m w st with
    | (Normal a, st') => k a w st'
    | (Throw message, st') => (Throw message, st')
    end.

Definition throw {A} (message : string) : M A := fun _ st => (Throw message, st).

Definition try_catch {A} (m : M A) (handler : string -> M A) : M A :=
  fun w st =>
    match m w st with
    | (Normal a, st') => (Normal a, st')
    | (Throw message, st') => handler message w st'
    end.

Definition ask : M World := fun w st => (Normal w, st).

Declare Scope probe_scope.
Delimit Scope probe_scope with probe.
Notation "x <- m ;; k" := (bind m (fun x => k))
  (at level 100, m at next level, right associativity) : probe_scope.
Notation "m ;;; k" := (bind m (fun _ => k))
  (at level 100, right associativity) : probe_scope.
Local Open Scope probe_scope.

(** Updates of one field of the state. *)
Definition with_results (f : gmap string Json -> gmap string Json) (st : State) : State :=
  {| results := f (results st); loading := loading st; progress := progress st;
     history := history st; requests := requests st; clock_reads := clock_reads st |}.

Definition with_loading (b : bool) (st : State) : State :=
  {| results := results st; loading := b; progress := progress st;
     history := history st; requests := requests st; clock_reads := clock_reads st |}.

Definition with_progress (p : number) (st : State) : State :=
  {| results := results st; loading := loading st; progress := p;
     history := history st; requests := requests st; clock_reads := clock_reads st |}.

Definition with_history (f : list HistoryEntry -> list HistoryEntry) (st : State) : State :=
  {| results := results st; loading := loading st; progress := progress st;
     history := f (history st); requests := requests st; clock_reads := clock_reads st |}.

Definition with_request (r : Request) (st : State) : State :=
  {| results := results st; loading := loading st; progress := progress st;
     history := history st; requests := requests st ++ [r];
     clock_reads := clock_reads st |}.

Definition with_clock_read (st : State) : State :=
  {| results := results st; loading := loading st; progress := progress st;
     history := history st; requests := requests st;
     clock_reads := S (clock_reads st) |}.

(** The setters of the component state.  A functional update is applied to
    the state as it is when the setter is called, and what its body reads
    (the clock, in two places) is read at that moment. *)
Definition setResults (f : gmap string Json -> gmap string Json) : M unit :=
  fun _ st => (Normal tt, with_results f st).

Definition setLoading (b : bool) : M unit :=
  fun _ st => (Normal tt, with_loading b st).

Definition setProgress (p : number) : M unit :=
  fun _ st => (Normal tt, with_progress p st).

Definition setHistory (f : list HistoryEntry -> list HistoryEntry) : M unit :=
  fun _ st => (Normal tt, with_history f st).

Definition earlier_requests (url : string) (log : list Request) : nat :=
  length (filter (fun r => request_url r = url) log).

Definition fetch (r : Request) : M Response :=
  fun w st =>
    match respond w r (earlier_requests (request_url r) (requests st)) with
    | Rejected message => (Throw message, with_request r st)
    | Fulfilled response => (Normal response, with_request r st)
    end.

Definition Date_now : M Z :=
  fun w st => (Normal (clock w (clock_reads st)), with_clock_read st).

Definition response_json (r : Response) : M Json :=
  match json r with
  | Parsed data => ret data
  | Unparsable message => throw message
  end.

Section Program.
Context `{Host}.

(** [data[key]].  Reading a property of [null] throws a TypeError. *)
Definition get_property (data : Json) (key : string) : M JsValue :=
  match data with
  | JNull => throw (null_property_message key)
  | _ => ret (property data key)
  end.

(** The placeholders [fetchData] starts from. *)
Definition placeholders : gmap string Json :=
  list_to_map
    [("ip", JStr "Fetching..."); ("ping", JStr "Testing...");
     ("download", JStr "Testing..."); ("upload", JStr "Testing...");
     ("nmap", JStr "Scanning..."); ("ports", JStr "Scanning...");
     ("services", JStr "Detecting..."); ("vuln", JStr "Scanning...");
     ("ssl", JStr "Checking..."); ("firewall", JStr "Checking...")].

(** The body of the [try] block of [fetchTest], up to its [return]. *)
Definition fetchTest_try (endpoint key : string) : M unit :=
  w <- ask ;;
  response <- fetch (GET (API_URL w ++ endpoint)) ;;
  if negb (ok response)
  then throw ("HTTP error! status: " ++ show_Z (status response))
  else
    data <- response_json response ;;
    value <- get_property data key ;;
    match value with
    | Some v =>
        if truthy value then setResults (fun prev => <[key := v]> prev)
        else
          error <- get_property data "error" ;;
          setResults (fun prev => <[key := JStr ("Error: " ++ to_string error)]> prev)
    | None =>
        error <- get_property data "error" ;;
        setResults (fun prev => <[key := JStr ("Error: " ++ to_string error)]> prev)
    end.

(** The [catch] block of [fetchTest] in iteration [i]. *)
Definition fetchTest_catch (key : string) (retries i : nat) (message : string) : M unit :=
  if (i =? retries - 1)%nat
  then setResults (fun prev => <[key := JStr ("Request failed: " ++ message)]> prev)
  else ret tt.

(** One iteration of the loop of [fetchTest]: [true] when the [try] block
    reached its [return]. *)
Definition fetchTest_iteration (endpoint key : string) (retries i : nat) : M bool :=
  try_catch (fetchTest_try endpoint key ;;; ret true)
            (fun message => fetchTest_catch key retries i message ;;; ret false).

(** [for (let i = 0; i < retries; i++) { try { ...; return } catch { ... } }];
    [fuel] bounds the number of iterations, [retries] is enough. *)
Fixpoint fetchTest_loop (endpoint key : string) (retries fuel i : nat) : M unit :=
  match fuel with
  | O => ret tt
  | S fuel' =>
      if (i <? retries)%nat then
        returned <- fetchTest_iteration endpoint key retries i ;;
        if returned : bool then ret tt
        else fetchTest_loop endpoint key retries fuel' (S i)
      else ret tt
  end.

Definition fetchTest (endpoint key : string) (retries : nat) : M unit :=
  fetchTest_loop endpoint key retries retries 0.

(** The default of the parameter [retries]; every call of [fetchTest] in
    [fetchData] relies on it. *)
Definition default_retries : nat := 3.

(** [await fetchTest("ip", "ip")] *)
Definition ip_probe : M unit := fetchTest "ip" "ip" default_retries.

(** The ping probe: the generic probe between two readings of the clock, then
    the overwrite of the [ping] key. *)
Definition ping_probe : M unit :=
  w <- ask ;;
  startTime <- (if window_defined w then Date_now else ret 0%Z) ;;
  fetchTest "ping" "ping" default_retries ;;;
  now <- Date_now ;;
  setResults (fun prev => <["ping" := JStr (show_Z (now - startTime) ++ "ms")]> prev).

(** The [while (true)] loop over [reader.read()]: returns the chunks pushed. *)
Fixpoint read_chunks (header : option string) (pending : list (list Byte.byte))
    (receivedLength : Z) (pushed : list (list Byte.byte)) : M (list (list Byte.byte)) :=
  match pending with
  | [] => ret pushed
  | value :: rest =>
      let receivedLength := (receivedLength + Z.of_nat (length value))%Z in
      let total := match header with Some s => string_to_number s | None => Fin 0 end in
      setProgress (of_Z receivedLength / total * Fin 100)%num ;;;
      read_chunks header rest receivedLength (pushed ++ [value])%list
  end.

(** The download probe: returns the blob and the measured speed. *)
Definition download_probe : M (list Byte.byte * number) :=
  w <- ask ;;
  downloadStart <- Date_now ;;
  downloadResponse <- fetch (GET (API_URL w ++ "download")) ;;
  match body downloadResponse with
  | None => throw "Failed to read download stream"
  | Some stream =>
      pushed <- read_chunks (content_length downloadResponse) (chunks stream) 0 [] ;;
      match failure stream with
      | Some message => throw message
      | None =>
          let blob := concat pushed in
          now <- Date_now ;;
          let downloadSpeed :=
            (of_Z (Z.of_nat (length blob)) / (of_Z (now - downloadStart) / Fin 1000)
             / Fin 1024 / Fin 1024)%num in
          setResults (fun prev =>
            <["download" := JStr ("Download Speed: " ++ toFixed 2 downloadSpeed ++ " MB/s")]> prev) ;;;
          ret (blob, downloadSpeed)
      end
  end.

(** The upload probe: returns [uploadSpeed], which stays 0 when the [try]
    block throws. *)
Definition upload_probe (blob : list Byte.byte) : M number :=
  try_catch
    (w <- ask ;;
     uploadStart <- Date_now ;;
     uploadResponse <- fetch (POST (API_URL w ++ "upload") (show_Z uploadStart) blob) ;;
     if negb (ok uploadResponse)
     then throw ("Upload failed: " ++ statusText uploadResponse)
     else
       uploadData <- response_json uploadResponse ;;
       reported <- get_property uploadData "uploadTime" ;;
       uploadTime <- (if truthy reported then ret (to_number reported)
                      else now <- Date_now ;; ret (of_Z (now - uploadStart))) ;;
       let uploadSpeed :=
         (of_Z (Z.of_nat (length blob)) / (uploadTime / Fin 1000) / Fin 1024 / Fin 1024)%num in
       setResults (fun prev =>
         <["upload" := JStr ("Upload Speed: " ++ toFixed 2 uploadSpeed ++ " MB/s")]> prev) ;;;
       ret uploadSpeed)
    (fun message =>
       setResults (fun prev => <["upload" := JStr ("Upload failed: " ++ message)]> prev) ;;;
       ret (Fin 0)).

(** [await Promise.all([fetchTest("nmap", "nmap"), ...])].  The six probes
    request six different URLs and write six different keys, and the answer
    to a request depends on the earlier requests to the same URL only: the
    state once all six have settled is the same for every interleaving, and
    is computed here by the interleaving that runs them one after the other. *)
Definition scan_probes : M unit :=
  fetchTest "nmap" "nmap" default_retries ;;;
  fetchTest "open-ports" "ports" default_retries ;;;
  fetchTest "services" "services" default_retries ;;;
  fetchTest "vuln-scan" "vuln" default_retries ;;;
  fetchTest "ssl-check" "ssl" default_retries ;;;
  fetchTest "firewall-check" "firewall" default_retries.

(** The entry [fetchData] appends.  [captured] is the [results] object of the
    render that created this [fetchData]: the closure reads that object, not
    the state the [setResults] calls of this run have produced. *)
Definition history_entry (captured : gmap string Json) (now : Z)
    (downloadSpeed uploadSpeed : number) : HistoryEntry :=
  {| timestamp := toLocaleTimeString now;
     ping := parseFloat (to_string (captured !! "ping"));
     download := parseFloat (toFixed 2 downloadSpeed);
     upload := parseFloat (toFixed 2 uploadSpeed) |}.

(** The first half of [fetchData]: the placeholders, then the IP and ping
    probes. *)
Definition latency_phase : M unit :=
  setLoading true ;;;
  setResults (fun _ => placeholders) ;;;
  ip_probe ;;;
  ping_probe.

(** The second half of [fetchData]: the download and upload probes, the
    scans, then the history entry. *)
Definition throughput_phase (captured : gmap string Json) : M unit :=
  downloaded <- download_probe ;;
  let '(blob, downloadSpeed) := downloaded in
  uploadSpeed <- upload_probe blob ;;
  scan_probes ;;;
  now <- Date_now ;;
  setHistory (fun prev => (prev ++ [history_entry captured now downloadSpeed uploadSpeed])%list) ;;;
  setLoading false.

Definition fetchData (captured : gmap string Json) : M unit :=
  latency_phase ;;; throughput_phase captured.

(** [useEffect(() => { fetchData() }, [])]: the first render has
    [results = {}]. *)
Definition mount : M unit := fetchData ∅.


End Program.
End Probe.

(** * Vocabulary of the statements, and the inputs of the examples *)

Definition finite (x : number) : Prop :=
  match x with
  | Fin _ => True
  | _ => False
  end.

Definition nonzero (x : number) : Prop := ~ strict_eq x (Fin 0).

Definition not_digit_first (s : string) : Prop :=
  match s with
  | String c _ => digit_of_ascii c = None
  | EmptyString => True
  end.

(** A host for the examples.  Its Number::toString is right on the integers
    and its StringToNumber on the decimal literals, which is all the examples
    apply them to; the TypeError message is the one of V8. *)
Definition sample_host : Host :=
  {| number_to_string := fun q => show_Z (Qfloor q);
     string_to_number := parseFloat;
     null_property_message :=
       fun key => "Cannot read properties of null (reading '" ++ key ++ "')";
     toLocaleTimeString := fun _ => "12:00:00 AM" |}.

Module EstimatorExamples.
Import Estimator.

(** The cloud providers of the [select] and their speed factors. *)
Definition providerFactors : list (string * Q) :=
  [("none", 1); ("google-drive", 0.9); ("aws-s3", 1.1); ("onedrive", 0.95)]%Q.

(** The five ways the loop of [convertFromBytes] can end on a finite number
    of bytes [b]: the size it leaves and the index of the unit. *)
Inductive normalized (b : Q) : Q -> nat -> Prop :=
| norm_bytes : (b < 1024)%Q -> normalized b b 0
| norm_KB : (1024 <= b)%Q -> (b / 1024 < 1024)%Q -> normalized b (b / 1024) 1
| norm_MB : (1024 <= b / 1024)%Q -> (b / 1024 / 1024 < 1024)%Q ->
    normalized b (b / 1024 / 1024) 2
| norm_GB : (1024 <= b / 1024 / 1024)%Q -> (b / 1024 / 1024 / 1024 < 1024)%Q ->
    normalized b (b / 1024 / 1024 / 1024) 3
| norm_TB : (1024 <= b / 1024 / 1024 / 1024)%Q ->
    normalized b (b / 1024 / 1024 / 1024 / 1024) 4.

(** One file of size 10 and unit MB, no compression, 10 Mbps down, no
    latency, no VPN, wifi, direct; the rest of the state is that of [st0]. *)
Definition ten_megabytes (name type : string) (st0 : EstimatorState) : EstimatorState :=
  setFiles [{| fd_name := name; fd_size := Fin 10; fd_unit := MB; fd_type := type |}]
    (setCompressionEnabled false
      (setDownloadSpeed (Fin 10)
        (setNetworkLatency (Fin 0)
          (setIsVpnEnabled false (setConnectionType wifi (setTransferType direct st0)))))).

(** One file of 2097152 bytes (2 MB), as the file input produces it, 1 Mbps
    down, no latency, compression enabled at the given rate. *)
Definition compression_example (rate : Q) : EstimatorState :=
  setFiles [file_of (Fin 2097152) bytes]
    (setDownloadSpeed (Fin 1)
      (setNetworkLatency (Fin 0)
        (setCompressionEnabled true (setCompressionRate (Fin rate) initialState)))).

Definition with_modifiers (vpn : bool) (conn : ConnectionType) (tr : TransferType)
    (st : EstimatorState) : EstimatorState :=
  setIsVpnEnabled vpn (setConnectionType conn (setTransferType tr st)).

(** No file, and a download speed of 0 (what the input gives once it is
    cleared); the rest is the state of the mounted component. *)
Definition stalled_example : EstimatorState := setDownloadSpeed (Fin 0) initialState.

End EstimatorExamples.

Module ProbeExamples.
Import Probe.

(** A relation between the state before and the state after is preserved by
    a computation when it holds whatever the computation returns or throws. *)
Definition preserves {A} (R : relation State) (w : World) (m : M A) : Prop :=
  forall st, R st (snd (m w st)).

(** [st'] has the [loading] flag and the [history] of [st], and its requests
    are those of [st] followed by requests to the given endpoints. *)
Definition frame (w : World) (endpoints : list string) (st st' : State) : Prop :=
  loading st' = loading st /\
  history st' = history st /\
  exists new : list Request,
    requests st' = (requests st ++ new)%list /\
    Forall (fun r => exists e, e ∈ endpoints /\ request_url r = API_URL w ++ e) new.

Definition same_clock (st st' : State) : Prop := clock_reads st' = clock_reads st.

Definition keeps (k : string) (st st' : State) : Prop := results st' !! k = results st !! k.


Definition scan_endpoints : list string :=
  ["nmap"; "open-ports"; "services"; "vuln-scan"; "ssl-check"; "firewall-check"].

Definition all_endpoints : list string :=
  ["ip"; "ping"; "download"; "upload"; "nmap"; "open-ports"; "services"; "vuln-scan";
   "ssl-check"; "firewall-check"].

(** A failed attempt of [fetchTest] for [key], and the message of the error
    its [try] block throws: the request is rejected, the status is not OK, the
    body is not JSON, or the body is [null]. *)
Inductive attempt_fails `{Host} (key : string) : FetchResult -> string -> Prop :=
| fails_rejected (message : string) :
    attempt_fails key (Rejected message) message
| fails_status (r : Response) :
    ok r = false ->
    attempt_fails key (Fulfilled r) ("HTTP error! status: " ++ show_Z (status r))
| fails_unparsable (r : Response) (message : string) :
    ok r = true -> json r = Unparsable message ->
    attempt_fails key (Fulfilled r) message
| fails_null (r : Response) :
    ok r = true -> json r = Parsed JNull ->
    attempt_fails key (Fulfilled r) (null_property_message key).

(** A 200 response with the given JSON body. *)
Definition json_response (data : Json) : Response :=
  {| ok := true; status := 200; statusText := "OK"; content_length := None;
     body := None; json := Parsed data |}.

(** A 200 response that streams the given chunks. *)
Definition stream_response (cs : list (list Byte.byte)) : Response :=
  {| ok := true; status := 200; statusText := "OK";
     content_length := Some (show_Z (Z.of_nat (length (concat cs))));
     body := Some {| chunks := cs; failure := None |};
     json := Unparsable "Unexpected token" |}.

Definition backend : string := "http://backend.themsovietbois.com:3001/".

(** A backend that answers the ping with [{ping: 999}], streams 1000 bytes,
    reports an upload time of 2 ms, refuses the connection of the nmap scan,
    answers the services scan with [{}] and the other scans with an error.
    The ping takes 42 ms and the download 1 ms. *)
Definition sample_world : World :=
  {| NEXT_PUBLIC_API_URL := None;
     window_defined := true;
     respond := fun r _ =>
       match r with
       | GET url =>
           if String.eqb url (backend ++ "ip")
           then Fulfilled (json_response (JObj [("ip", JStr "203.0.113.7")]))
           else if String.eqb url (backend ++ "ping")
           then Fulfilled (json_response (JObj [("ping", JNum 999)]))
           else if String.eqb url (backend ++ "download")
           then Fulfilled (stream_response [repeat Byte.x00 600; repeat Byte.x00 400])
           else if String.eqb url (backend ++ "nmap") then Rejected "Failed to fetch"
           else if String.eqb url (backend ++ "services") then Fulfilled (json_response (JObj []))
           else Fulfilled (json_response (JObj [("error", JStr "scan unavailable")]))
       | POST _ _ _ => Fulfilled (json_response (JObj [("uploadTime", JNum 2)]))
       end;
     clock := fun n =>
       match n with
       | 0%nat => 1000%Z
       | 1%nat => 1042%Z
       | 2%nat => 1042%Z
       | 3%nat => 1043%Z
       | 4%nat => 1043%Z
       | _ => 1100%Z
       end |}.

(** A backend that cannot be reached. *)
Definition unreachable_world : World :=
  {| NEXT_PUBLIC_API_URL := None;
     window_defined := true;
     respond := fun _ _ => Rejected "Failed to fetch";
     clock := fun n => (1000 + 5 * Z.of_nat n)%Z |}.

(** A backend whose download response has no body. *)
Definition bodiless_world : World :=
  {| NEXT_PUBLIC_API_URL := None;
     window_defined := true;
     respond := fun r _ =>
       match r with
       | GET url =>
           if String.eqb url (backend ++ "download")
           then Fulfilled (json_response JNull)
           else Fulfilled (json_response (JObj [("ip", JStr "203.0.113.7")]))
       | POST _ _ _ => Fulfilled (json_response (JObj []))
       end;
     clock := fun n => (1000 + 5 * Z.of_nat n)%Z |}.

End ProbeExamples.

(** * The rest of the two components *)

Module EstimatorUI.
Import Estimator.

(** A file as the browser hands it over: [file.name], [file.size] (a number
    of bytes) and [file.type]. *)
Record BrowserFile : Type := {
  bf_name : string;
  bf_size : N;
  bf_type : string;
}.

(** [(file) => ({ name: file.name, size: file.size, unit: "bytes", type: file.type })] *)
Definition toFileData (file : BrowserFile) : FileData :=
  {| fd_name := bf_name file;
     fd_size := Fin (inject_Z (Z.of_N (bf_size file)));
     fd_unit := bytes;
     fd_type := bf_type file |}.

(** [handleFileChange]: [e.target.files] is [null] or the list of the files
    selected; the selection replaces the files of the state. *)
Definition handleFileChange (target_files : option (list BrowserFile))
    (st : EstimatorState) : EstimatorState :=
  let selectedFiles := match target_files with Some fs => fs | None => [] end in
  let fileData := map toFileData selectedFiles in
  setFiles fileData st.

(** The drop zone: the [isDragging] flag beside the state of the estimator.
    ([preventDefault] and [stopPropagation] act on the event only.) *)
Record DropZone : Type := {
  isDragging : bool;
  estimator : EstimatorState;
}.

Definition handleDragEnter (z : DropZone) : DropZone :=
  {| isDragging := true; estimator := estimator z |}.

Definition handleDragLeave (z : DropZone) : DropZone :=
  {| isDragging := false; estimator := estimator z |}.

Definition handleDragOver (z : DropZone) : DropZone := z.

Definition handleDrop (dataTransfer_files : list BrowserFile) (z : DropZone) : DropZone :=
  let droppedFiles := dataTransfer_files in
  let fileData := map toFileData droppedFiles in
  {| isDragging := false; estimator := setFiles fileData (estimator z) |}.


(** The sum of the sizes of the files of a selection, in bytes. *)
Definition selectionBytes (fs : list BrowserFile) : Z :=
  fold_right (fun f acc => (Z.of_N (bf_size f) + acc)%Z) 0%Z fs.

(** The product of the factors of the three modifiers. *)
Definition modifierFactor (st : EstimatorState) : Q :=
  ((if isVpnEnabled st then 0.9 else 1)
   * (match connectionType st with ethernet => 1.2 | wifi => 1 end)
   * (match transferType st with p2p => 0.8 | direct => 1 end))%Q.

(** A state the inputs of the component produce when they are filled in as
    their labels ask: files of finite non-negative sizes that add up to
    less than 10^21 bytes, finite positive speeds, and a finite latency. *)
Record plausible (st : EstimatorState) (total down up latency : Q) : Prop := {
  plausible_sizes :
    Forall (fun f => exists q, fd_size f = Fin q /\ (0 <= q)%Q) (files st);
  plausible_total : totalSize (files st) = Fin total /\ (total < inject_Z (10 ^ 21))%Q;
  plausible_down : downloadSpeed st = Fin down /\ (0 < down)%Q;
  plausible_up : uploadSpeed st = Fin up /\ (0 < up)%Q;
  plausible_latency : networkLatency st = Fin latency;
}.

(** Compression is off, or its rate is the finite number [rate]. *)
Definition compression_rate (st : EstimatorState) (rate : Q) : Prop :=
  if compressionEnabled st then compressionRate st = Fin rate else rate = 0%Q.

(** Two files as a file input hands them over: 1536 bytes and 2 MB. *)
Definition sample_selection : list BrowserFile :=
  [{| bf_name := "notes.txt"; bf_size := 1536; bf_type := "text/plain" |};
   {| bf_name := "clip.mp4"; bf_size := 2097152; bf_type := "video/mp4" |}].

End EstimatorUI.

Module ProbeView.
Import Probe.

(** [Math.min] and [Math.max] of two numbers: NaN as soon as one is NaN. *)
Definition Math_min (a b : number) : number :=
  match a, b with
  | NaN, _ | _, NaN => NaN
  | _, _ => if num_geb a b then b else a
  end.

Definition Math_max (a b : number) : number :=
  match a, b with
  | NaN, _ | _, NaN => NaN
  | _, _ => if num_geb a b then a else b
  end.


Section View.
Context `{Host}.




(** [parseFloat(results.ping as string)] *)
Definition ping_number (results : gmap string Json) : number :=
  parseFloat (to_string (results !! "ping")).

(** The width, in percent, and the red and blue components of the ping bar. *)
Definition ping_bar_width (results : gmap string Json) : number :=
  Math_min (Fin 100) (ping_number results / Fin 5)%num.

Definition ping_bar_red (results : gmap string Json) : number :=
  Math_min (Fin 255) (ping_number results / Fin 2 * Fin 5)%num.

Definition ping_bar_blue (results : gmap string Json) : number :=
  Math_max (Fin 0) (Fin 255 - ping_number results / Fin 2 * Fin 5)%num.

(** The [style] of the ping bar: [width] and [backgroundColor]. *)
Definition ping_bar_style (results : gmap string Json) : string * string :=
  (num_to_string (ping_bar_width results) ++ "%",
   "rgb(" ++ num_to_string (ping_bar_red results) ++ ", 0, "
   ++ num_to_string (ping_bar_blue results) ++ ")").

(** The message of the error the [try] block of the upload probe throws on
    the answer to its request, if it does. *)
Definition upload_failure (answer : FetchResult) : option string :=
  match answer with
  | Rejected message => Some message
  | Fulfilled r =>
      if negb (ok r) then Some ("Upload failed: " ++ statusText r)
      else
        match json r with
        | Unparsable message => Some message
        | Parsed JNull => Some (null_property_message "uploadTime")
        | Parsed _ => None
        end
  end.


End View.



(** [undefined] or [null]: the values whose properties cannot be read. *)
Definition nullish (v : JsValue) : bool :=
  match v with
  | None | Some JNull => true
  | Some _ => false
  end.

(** The state once a probe has stored [v] under [key] and sent the requests
    [sent]: nothing else has changed. *)
Definition after_probe (key : string) (v : Json) (sent : list Request) (st : State) : State :=
  {| results := <[key := v]> (results st); loading := loading st; progress := progress st;
     history := history st; requests := (requests st ++ sent)%list;
     clock_reads := clock_reads st |}.

(** A key that holds a value other than [null] keeps holding one. *)
Definition stays_defined (k : string) (st st' : State) : Prop :=
  nullish (results st !! k) = false -> nullish (results st' !! k) = false.


End ProbeView.

(** * Facts about decimal text, [toFixed] and [parseFloat] *)

Lemma read_digits_other (s : string) :
  not_digit_first s -> read_digits s = (Nil, s).
Proof. destruct s as [|c r]; simpl; [reflexivity|]. intros ->. reflexivity. Qed.

(** Reading back the digits that were printed. *)
Lemma read_digits_print (d : uint) (rest : string) :
  not_digit_first rest ->
  read_digits (NilEmpty.string_of_uint d ++ rest) = (d, rest).
Proof.
  intros Hrest. induction d; simpl; rewrite ?IHd; auto using read_digits_other.
Qed.

Lemma show_N_print (n : N) :
  show_N n = NilEmpty.string_of_uint (N.to_uint n) /\ N.to_uint n <> Nil.
Proof.
  unfold show_N. destruct n as [|p]; simpl.
  - split; [reflexivity | discriminate].
  - pose proof (DecimalPos.Unsigned.to_uint_nonnil p) as Hp.
    split; [|exact Hp]. destruct (Pos.to_uint p); [contradiction | reflexivity..].
Qed.

Lemma read_unsigned_digits (d : uint) (rest : string) :
  d <> Nil ->
  read_unsigned (NilEmpty.string_of_uint d ++ rest) =
  read_decimal (NilEmpty.string_of_uint d ++ rest).
Proof. intros Hd. destruct d; [contradiction | reflexivity..]. Qed.

Lemma parseFloat_digits (d : uint) (rest : string) :
  d <> Nil ->
  parseFloat (NilEmpty.string_of_uint d ++ rest) =
  read_unsigned (NilEmpty.string_of_uint d ++ rest).
Proof. intros Hd. destruct d; [contradiction | reflexivity..]. Qed.

Ltac enum_digit k H :=
  let E := fresh in
  assert (E : (k = 0 \/ k = 1 \/ k = 2 \/ k = 3 \/ k = 4 \/
               k = 5 \/ k = 6 \/ k = 7 \/ k = 8 \/ k = 9)%Z) by lia;
  clear H; repeat destruct E as [E | E]; subst k.

Lemma read_decimal_two (d : uint) (a b : Z) :
  d <> Nil -> (0 <= a < 10)%Z -> (0 <= b < 10)%Z ->
  read_decimal (NilEmpty.string_of_uint d ++
                String "." (String (ascii_of_digit a) (String (ascii_of_digit b) ""))) =
  Fin ((inject_Z (Z.of_uint d) + inject_Z (10 * a + b) / inject_Z (10 ^ 2)) * Qpower 10 0)%Q.
Proof.
  intros Hd Ha Hb. unfold read_decimal.
  rewrite read_digits_print by reflexivity.
  enum_digit a Ha; enum_digit b Hb; (destruct d; [contradiction | reflexivity..]).
Qed.

(** The text [toFixed(2)] prints for [n] hundredths parses back to [n / 100]. *)
Lemma fixed_digits_parse (n : Z) :
  (0 <= n)%Z ->
  exists v : Q, parseFloat (fixed_digits 2 n) = Fin v /\ (v == inject_Z n / 100)%Q.
Proof.
  intros Hn. unfold fixed_digits.
  destruct (show_N_print (Z.to_N (n / 10 ^ Z.of_nat 2))) as [-> Hnil].
  rewrite parseFloat_digits, read_unsigned_digits by auto.
  change (frac_digits 2 n) with
    (String (ascii_of_digit ((n / 10) mod 10)) (String (ascii_of_digit ((n / 1) mod 10)) "")).
  rewrite read_decimal_two by (auto; apply Z.mod_pos_bound; lia).
  eexists; split; [reflexivity|].
  unfold Z.of_uint. change (Pos.of_uint ?d) with (N.of_uint d).
  rewrite DecimalN.Unsigned.of_to, Z2N.id by (apply Z.div_pos; lia).
  change (Z.of_nat 2) with 2%Z. change (10 ^ 2)%Z with 100%Z.
  assert (E : n = (100 * (n / 100) + (10 * ((n / 10) mod 10) + (n / 1) mod 10))%Z).
  { rewrite Z.div_1_r.
    pose proof (Z.div_mod n 10 ltac:(lia)) as H1.
    pose proof (Z.div_mod (n / 10) 10 ltac:(lia)) as H2.
    assert (H3 : (n / 10 / 10 = n / 100)%Z) by (rewrite Z.div_div by lia; reflexivity).
    lia. }
  clear Hn Hnil.
  set (hi := (n / 100)%Z) in *. set (a := ((n / 10) mod 10)%Z) in *.
  set (b := ((n / 1) mod 10)%Z) in *. clearbody hi a b. subst n.
  rewrite !inject_Z_plus, !inject_Z_mult. simpl Qpower. field.
Qed.

(** Division by a constant, put in the form [lra] accepts. *)
Ltac inv_consts :=
  unfold Qdiv in *;
  repeat match goal with
  | |- context [Qinv ?c] =>
      let v := eval vm_compute in (Qinv c) in progress change (Qinv c) with v
  | H : context [Qinv ?c] |- _ =>
      let v := eval vm_compute in (Qinv c) in progress change (Qinv c) with v in H
  end.

Section NumberFacts.
Context `{Host}.

Lemma round_scaled_nonneg (q : Q) : (0 <= q)%Q -> (0 <= round_scaled 2 q)%Z.
Proof.
  intros Hq. unfold round_scaled.
  change 0%Z with (Qfloor 0). apply Qfloor_resp_le.
  change (inject_Z (10 ^ Z.of_nat 2)) with 100%Q. lra.
Qed.

(** Rounding to hundredths moves a number by at most half a hundredth. *)
Lemma round_scaled_close (q : Q) :
  (Qabs (inject_Z (round_scaled 2 q) / 100 - q) <= 1 # 200)%Q.
Proof.
  unfold round_scaled. change (inject_Z (10 ^ Z.of_nat 2)) with 100%Q.
  pose proof (Qfloor_le (q * 100 + (1 # 2))) as Hle.
  pose proof (Qlt_floor (q * 100 + (1 # 2))) as Hlt.
  rewrite inject_Z_plus in Hlt. change (inject_Z 1) with 1%Q in Hlt.
  apply Qabs_Qle_condition.
  set (n := inject_Z (Qfloor (q * 100 + (1 # 2)))) in *. clearbody n.
  inv_consts. split; lra.
Qed.

Lemma toFixed_fixed (q : Q) :
  (0 <= q)%Q -> (q < inject_Z (10 ^ 21))%Q ->
  toFixed 2 (Fin q) = fixed_digits 2 (round_scaled 2 q).
Proof.
  intros H0 H1. unfold toFixed.
  destruct (Qle_bool (inject_Z (10 ^ 21)) (Qabs q)) eqn:E.
  - apply Qle_bool_iff in E. rewrite Qabs_pos in E by assumption. lra.
  - unfold Qltb. destruct (Qle_bool 0 q) eqn:E0; [reflexivity|].
    apply Qle_bool_iff in H0. congruence.
Qed.

(** [parseFloat(x.toFixed(2))] is [x] rounded to the nearest hundredth, for
    [0 <= x < 10^21]. *)
Lemma parseFloat_toFixed (q : Q) :
  (0 <= q)%Q -> (q < inject_Z (10 ^ 21))%Q ->
  exists v : Q, parseFloat (toFixed 2 (Fin q)) = Fin v /\
                (v == inject_Z (round_scaled 2 q) / 100)%Q.
Proof.
  intros H0 H1. rewrite toFixed_fixed by assumption.
  apply fixed_digits_parse, round_scaled_nonneg, H0.
Qed.

Lemma parseFloat_toFixed_zero (q : Q) :
  (q == 0)%Q -> strict_eq (parseFloat (toFixed 2 (Fin q))) (Fin 0).
Proof.
  intros Hq.
  destruct (parseFloat_toFixed q) as (v & -> & Hv).
  - lra.
  - rewrite Hq. reflexivity.
  - simpl. rewrite Hv. unfold round_scaled.
    rewrite (Qfloor_comp _ (1 # 2)); [reflexivity|].
    rewrite Hq. reflexivity.
Qed.


Lemma num_div_fin (a b : Q) : ~ (b == 0)%Q -> num_div (Fin a) (Fin b) = Fin (a / b).
Proof.
  intros Hb. cbn [num_div]. destruct (Qeq_bool b 0) eqn:E; [|reflexivity].
  apply Qeq_bool_iff in E. contradiction.
Qed.

Lemma Qle_bool_false (a b : Q) : Qle_bool a b = false -> (b < a)%Q.
Proof.
  intros E. apply Qnot_le_lt. intros Hle. apply Qle_bool_iff in Hle. congruence.
Qed.

End NumberFacts.

(** * Facts about the estimator *)

Ltac unit_consts :=
  repeat match goal with
  | |- context [Estimator.unitBytes ?u] =>
      let v := eval vm_compute in (Estimator.unitBytes u) in
      progress change (Estimator.unitBytes u) with v
  end;
  repeat match goal with
  | |- context [inject_Z ?z] =>
      let v := eval vm_compute in (inject_Z z) in progress change (inject_Z z) with v
  | H : context [inject_Z ?z] |- _ =>
      let v := eval vm_compute in (inject_Z z) in progress change (inject_Z z) with v in H
  end.

Section EstimatorFacts.
Import Estimator EstimatorExamples.
Context `{Host}.

Lemma convert_loop_step (fuel : nat) (b : Q) (i : nat) :
  convert_loop (S fuel) (Fin b) i =
  if (Qle_bool 1024 b && (i <? 4)%nat)%bool
  then convert_loop fuel (Fin (b / 1024)) (S i)
  else (Fin b, i).
Proof. reflexivity. Qed.

Lemma convert_loop_normalized (b : Q) :
  exists s k, convert_loop (length units) (Fin b) 0 = (Fin s, k) /\ normalized b s k.
Proof.
  change (length units) with 5%nat.
  rewrite convert_loop_step.
  destruct (Qle_bool 1024 b) eqn:E0; cbn [andb Nat.ltb Nat.leb];
    [apply Qle_bool_iff in E0 | apply Qle_bool_false in E0].
  2: { do 2 eexists; split; [reflexivity | constructor; assumption]. }
  rewrite convert_loop_step.
  destruct (Qle_bool 1024 (b / 1024)) eqn:E1; cbn [andb Nat.ltb Nat.leb];
    [apply Qle_bool_iff in E1 | apply Qle_bool_false in E1].
  2: { do 2 eexists; split; [reflexivity | constructor; assumption]. }
  rewrite convert_loop_step.
  destruct (Qle_bool 1024 (b / 1024 / 1024)) eqn:E2; cbn [andb Nat.ltb Nat.leb];
    [apply Qle_bool_iff in E2 | apply Qle_bool_false in E2].
  2: { do 2 eexists; split; [reflexivity | constructor; assumption]. }
  rewrite convert_loop_step.
  destruct (Qle_bool 1024 (b / 1024 / 1024 / 1024)) eqn:E3; cbn [andb Nat.ltb Nat.leb];
    [apply Qle_bool_iff in E3 | apply Qle_bool_false in E3].
  2: { do 2 eexists; split; [reflexivity | constructor; assumption]. }
  rewrite convert_loop_step, andb_false_r.
  do 2 eexists; split; [reflexivity | constructor; assumption].
Qed.

(** The loop of [convertFromBytes] stops by its condition: more fuel changes
    nothing. *)
Lemma convert_loop_fuel (b : Q) (extra : nat) :
  convert_loop (length units + extra) (Fin b) 0 = convert_loop (length units) (Fin b) 0.
Proof.
  change (length units) with 5%nat. cbn [Nat.add].
  repeat (rewrite !convert_loop_step;
          match goal with
          | |- context [Qle_bool 1024 ?x] => destruct (Qle_bool 1024 x)
          end; cbn [andb Nat.ltb Nat.leb]; try reflexivity).
  destruct extra; [reflexivity|]. rewrite convert_loop_step, andb_false_r. reflexivity.
Qed.

Lemma effectiveSpeed_fin (st : EstimatorState) (d : Q) :
  ~ (d == 0)%Q -> exists e, effectiveSpeed st (Fin d) = Fin e /\ ~ (e == 0)%Q.
Proof.
  intros Hd. unfold effectiveSpeed.
  destruct (isVpnEnabled st), (connectionType st), (transferType st);
    cbn [num_mul]; eexists; (split; [reflexivity|]); lra.
Qed.

(** The VPN, ethernet and P2P factors multiply to [0.9 * 1.2 * 0.8]. *)
Lemma effectiveSpeed_all_modifiers (st : EstimatorState) (d : Q) :
  strict_eq (effectiveSpeed (with_modifiers true ethernet p2p st) (Fin d))
            (Fin (d * 0.9 * 1.2 * 0.8)).
Proof. cbn. reflexivity. Qed.

Lemma latency_floor (st : EstimatorState) (v e l : Q) :
  (v == 0)%Q -> ~ (e == 0)%Q -> networkLatency st = Fin l ->
  strict_eq (calculateTimeWithLatency st (Fin v) (Fin e)) (networkLatency st / Fin 1000)%num.
Proof.
  intros Hv He Hl. unfold calculateTimeWithLatency, calculateTime. rewrite Hl.
  cbn [num_mul]. rewrite !num_div_fin by lra.
  cbn [num_add strict_eq]. rewrite Hv. field. lra.
Qed.

Lemma finalSize_zero (c : Q) :
  (c == 0)%Q -> exists v, cv_size (convertFromBytes (Fin c)) = Fin v /\ (v == 0)%Q.
Proof.
  intros Hc. unfold convertFromBytes.
  destruct (convert_loop_normalized c) as (s & k & -> & Hn).
  cbn [cv_size].
  assert (Hs : (s == 0)%Q) by (destruct Hn; inv_consts; lra).
  pose proof (parseFloat_toFixed_zero s Hs) as Hz.
  destruct (parseFloat (toFixed 2 (Fin s))) as [v| | |]; try contradiction.
  exists v. split; [reflexivity | exact Hz].
Qed.

Lemma totalSize_fin (fs : list FileData) :
  Forall (fun f => finite (fd_size f)) fs -> exists t, totalSize fs = Fin t.
Proof.
  unfold totalSize. generalize 0%Q as acc. intros acc Hfs. revert acc.
  induction Hfs as [|f fs Hf _ IH]; intros acc; cbn [fold_left]; [eauto|].
  destruct (fd_size f) as [q| | |]; try contradiction.
  destruct (fd_unit f); cbn; apply IH.
Qed.

Lemma compressedSize_empty (st : EstimatorState) :
  files st = [] -> finite (compressionRate st) ->
  exists c, compressedSize st = Fin c /\ (c == 0)%Q.
Proof.
  intros Hf Hr. unfold compressedSize. rewrite Hf. cbn [totalSize fold_left].
  destruct (compressionEnabled st).
  - destruct (compressionRate st) as [r| | |]; try contradiction.
    rewrite num_div_fin by lra. cbn. eexists; split; [reflexivity | ring].
  - eexists; split; reflexivity.
Qed.

Lemma factor_of_provider (p : string) (f : number) :
  cloudSpeedFactors !! p = Some f -> exists q, In (p, q) providerFactors /\ f = Fin q.
Proof.
  intros Hp. unfold cloudSpeedFactors in Hp.
  apply elem_of_list_to_map_2 in Hp.
  repeat (apply elem_of_cons in Hp; destruct Hp as [Hp | Hp];
          [inversion Hp; subst; eexists; split; [|reflexivity]; cbn; tauto|]).
  inversion Hp.
Qed.

Lemma provider_of_factor (p : string) (q : Q) :
  In (p, q) providerFactors -> cloudSpeedFactors !! p = Some (Fin q).
Proof.
  intros Hin. cbn in Hin.
  repeat (destruct Hin as [Hin | Hin]; [inversion Hin; subst; reflexivity|]).
  contradiction.
Qed.

(** With compression at 100 percent the download time is the latency alone
    (the part of C3 that the code satisfies). *)
Lemma full_compression_latency_floor (st : EstimatorState) (d : Q) :
  compressionEnabled st = true -> compressionRate st = Fin 100 ->
  Forall (fun f => finite (fd_size f)) (files st) ->
  downloadSpeed st = Fin d -> (0 < d)%Q -> finite (networkLatency st) ->
  strict_eq (downloadTime (handleEstimate st)) (networkLatency st / Fin 1000)%num.
Proof.
  intros Hc Hr Hfs Hd Hpos Hl.
  destruct (totalSize_fin _ Hfs) as (t & Ht).
  destruct (effectiveSpeed_fin st d) as (e & He & He0); [lra|].
  destruct (networkLatency st) as [l| | |] eqn:El; try contradiction.
  unfold handleEstimate. cbn [downloadTime]. unfold compressedSize.
  rewrite Hc, Hr, Ht, Hd, He. rewrite num_div_fin by lra.
  cbn [num_sub num_neg num_add num_mul].
  destruct (finalSize_zero (t * (1 + - (100 / 100)))) as (v & -> & Hv); [field|].
  rewrite <- El. eapply latency_floor; eauto.
Qed.

End EstimatorFacts.

Section EstimatorClaims.
Import Estimator EstimatorExamples.
Context `{Host}.

(** C1 (amended).  For one file of size 10 and unit MB, compression disabled,
    a download speed of 10 Mbps, no latency, no VPN, wifi and a direct
    transfer, [handleEstimate] sets the download time to
    [(10*8)/(10*1024*1024)] seconds, which is about 0.00000763 s (to within
    half a unit of the last digit): the formula is applied to the size 10
    that [convertFromBytes] returns, not to the 10485760 bytes of the file. *)
Theorem ten_megabytes_download_time (name type : string) (st0 : EstimatorState) :
  let st := ten_megabytes name type st0 in
  let t := downloadTime (handleEstimate st) in
  strict_eq t (Fin ((10 * 8) / (10 * 1024 * 1024))) /\
  within (5 / 1000000000) t (Fin 0.00000763) /\
  ~ strict_eq t (calculateTime (totalSize (files st)) (downloadSpeed st)).
Proof.
  intros st t. subst t st. split; [|split].
  - vm_compute. reflexivity.
  - vm_compute. discriminate.
  - vm_compute. discriminate.
Qed.

(** C3 (the code breaks the claim).  With one file of 2097152 bytes and a
    download speed of 1 Mbps, raising the compression rate from 0 to 75
    percent raises the download time, from 16/1048576 s to 4096/1048576 s:
    the compressed size is 512 KB, and the formula is applied to 512 where
    it was applied to 2 (MB). *)
Theorem compression_raises_download_time :
  num_lt (downloadTime (handleEstimate (compression_example 0)))
         (downloadTime (handleEstimate (compression_example 75))) /\
  strict_eq (downloadTime (handleEstimate (compression_example 0))) (Fin (16 / 1048576)) /\
  strict_eq (downloadTime (handleEstimate (compression_example 75))) (Fin (4096 / 1048576)).
Proof. split; [|split]; vm_compute; reflexivity. Qed.


(** C5 (amended).  For an empty file list and a configuration of finite
    numbers whose download and upload speeds are not zero (and whose cloud
    provider is one of the table), [handleEstimate] sets the download, upload
    and cloud upload times to [networkLatency / 1000] exactly. *)
Theorem empty_files_latency_floor (st : EstimatorState) :
  files st = [] ->
  finite (downloadSpeed st) -> finite (uploadSpeed st) ->
  finite (networkLatency st) -> finite (compressionRate st) ->
  nonzero (downloadSpeed st) -> nonzero (uploadSpeed st) ->
  is_Some (cloudSpeedFactors !! cloudProvider st) ->
  let floor := (networkLatency st / Fin 1000)%num in
  strict_eq (downloadTime (handleEstimate st)) floor /\
  strict_eq (uploadTime (handleEstimate st)) floor /\
  strict_eq (cloudUploadTime (handleEstimate st)) floor.
Proof.
  intros Hf Hd Hu Hl Hr Hd0 Hu0 [f Hp] floor. subst floor.
  destruct (compressedSize_empty st Hf Hr) as (c & Hc & Hc0).
  destruct (finalSize_zero c Hc0) as (v & Hv & Hv0).
  destruct (downloadSpeed st) as [d| | |] eqn:Ed; try contradiction.
  destruct (uploadSpeed st) as [u| | |] eqn:Eu; try contradiction.
  destruct (networkLatency st) as [l| | |] eqn:El; try contradiction.
  destruct (factor_of_provider _ _ Hp) as (q & Hq & ->).
  unfold handleEstimate, estimateCloudUploadTime.
  cbn [downloadTime uploadTime cloudUploadTime].
  rewrite Hc, Hv, Hp, Ed, Eu, <- El.
  destruct (effectiveSpeed_fin st d) as (ed & -> & Hed); [exact Hd0|].
  destruct (effectiveSpeed_fin st u) as (eu & -> & Heu); [exact Hu0|].
  cbn [num_mul].
  repeat split; eapply latency_floor; eauto.
  cbn in Hq. unfold nonzero in Hu0. cbn in Hu0.
  repeat (destruct Hq as [Hq | Hq]; [inversion Hq; subst; lra|]). contradiction.
Qed.

(** C6.  For every state and each of the four providers, the cloud upload
    time is the latency-inclusive formula applied to the base upload speed
    times the provider's factor (none 1, google-drive 0.9, aws-s3 1.1,
    onedrive 0.95); it is the formula that gives the download and upload
    times from the modified speeds, and the VPN, connection-type and
    transfer-type settings do not change it. *)
Theorem cloud_upload_time (st : EstimatorState) (p : string) (f : Q) :
  In (p, f) providerFactors -> cloudProvider st = p ->
  let finalSize := cv_size (convertFromBytes (compressedSize st)) in
  let time := fun size speed : number =>
    (size * Fin 8 / (speed * Fin 1024 * Fin 1024) + networkLatency st / Fin 1000)%num in
  cloudUploadTime (handleEstimate st) = time finalSize (uploadSpeed st * Fin f)%num /\
  downloadTime (handleEstimate st) = time finalSize (effectiveSpeed st (downloadSpeed st)) /\
  uploadTime (handleEstimate st) = time finalSize (effectiveSpeed st (uploadSpeed st)) /\
  forall vpn conn tr,
    cloudUploadTime (handleEstimate (with_modifiers vpn conn tr st)) =
    cloudUploadTime (handleEstimate st).
Proof.
  intros Hin Hp finalSize time.
  assert (Hf : forall st', cloudProvider st' = p ->
            cloudSpeedFactors !! cloudProvider st' = Some (Fin f))
    by (intros st' ->; apply provider_of_factor, Hin).
  split; [|split; [reflexivity|split; [reflexivity|]]].
  - unfold handleEstimate, estimateCloudUploadTime. cbn [cloudUploadTime].
    rewrite (Hf st Hp). reflexivity.
  - intros vpn conn tr.
    unfold handleEstimate, estimateCloudUploadTime. cbn [cloudUploadTime].
    rewrite (Hf st Hp), (Hf (with_modifiers vpn conn tr st) Hp). reflexivity.
Qed.

End EstimatorClaims.

(** ** The estimator on the examples

    In the three counterexamples the sizes, rates and speeds are dyadic, so
    the exact arithmetic of the model is also that of binary64 on them. *)

Section EstimatorExamplesFacts.
Import Estimator EstimatorExamples.

(** C1 as stated fails: the download time of the example is
    [(10*8)/(10*1024*1024)], and that is not within half a unit of the last
    digit of 0.0000763 (it is ten times smaller). *)
Lemma ten_megabytes_not_763 :
  let t := downloadTime (@handleEstimate sample_host (ten_megabytes "a.bin" "" initialState)) in
  ~ (strict_eq t (Fin ((10 * 8) / (10 * 1024 * 1024))) /\
     within (5 / 100000000) t (Fin 0.0000763)).
Proof.
  intros t [_ Hw]. cbn [within] in Hw. vm_compute in Hw. apply Hw. reflexivity.
Qed.



(** C5 as stated fails: with no file and a download speed of 0, the
    download time is NaN (0/0 plus the latency), not the latency. *)
Lemma zero_speed_not_latency_floor :
  let st := @handleEstimate sample_host stalled_example in
  let floor := (networkLatency stalled_example / Fin 1000)%num in
  downloadTime st = NaN /\
  ~ (strict_eq (downloadTime st) floor /\
     strict_eq (uploadTime st) floor /\
     strict_eq (cloudUploadTime st) floor).
Proof.
  intros st floor. split; [reflexivity|].
  intros [Hd _]. exact Hd.
Qed.

Lemma empty_files_latency_floor_witness :
  let st := initialState in
  let floor := (networkLatency st / Fin 1000)%num in
  files st = [] /\
  nonzero (downloadSpeed st) /\ nonzero (uploadSpeed st) /\
  strict_eq (downloadTime (@handleEstimate sample_host st)) floor /\
  strict_eq (uploadTime (@handleEstimate sample_host st)) floor /\
  strict_eq (cloudUploadTime (@handleEstimate sample_host st)) floor.
Proof.
  intros st floor.
  assert (Hd : nonzero (downloadSpeed st)) by (intros E; vm_compute in E; discriminate).
  assert (Hu : nonzero (uploadSpeed st)) by (intros E; vm_compute in E; discriminate).
  split; [reflexivity | split; [exact Hd | split; [exact Hu|]]].
  exact (@empty_files_latency_floor sample_host st eq_refl I I I I Hd Hu
           (ex_intro _ (Fin 1) eq_refl)).
Defined.

Lemma cloud_upload_time_witness :
  let st := setCloudProvider "aws-s3" initialState in
  In ("aws-s3", 1.1%Q) providerFactors /\
  cloudUploadTime (@handleEstimate sample_host st) =
  (cv_size (@convertFromBytes sample_host (compressedSize st)) * Fin 8
   / (uploadSpeed st * Fin 1.1 * Fin 1024 * Fin 1024) + networkLatency st / Fin 1000)%num.
Proof.
  intros st.
  assert (Hin : In ("aws-s3", 1.1%Q) providerFactors) by (cbn; tauto).
  split; [exact Hin|].
  exact (proj1 (@cloud_upload_time sample_host st "aws-s3" 1.1%Q Hin eq_refl)).
Defined.

End EstimatorExamplesFacts.

(** * Facts about the probe orchestrator *)

Import Probe ProbeExamples.

Create HintDb probe discriminated.

(** ** Relations that a computation preserves *)
Section Preserves.
Context (R : relation State) `{!PreOrder R} (w : World).

Lemma preserves_ret {A} (a : A) : preserves R w (ret a).
Proof. intros st. reflexivity. Qed.

Lemma preserves_throw {A} message : preserves R w (@throw A message).
Proof. intros st. reflexivity. Qed.

Lemma preserves_bind {A B} (m : M A) (k : A -> M B) :
  preserves R w m -> (forall a, preserves R w (k a)) -> preserves R w (bind m k).
Proof.
  intros Hm Hk st. unfold bind. specialize (Hm st).
  destruct (m w st) as [[a | e] st1]; cbn [snd] in *; [|exact Hm].
  etransitivity; [exact Hm | apply Hk].
Qed.

Lemma preserves_ask_bind {B} (k : World -> M B) :
  preserves R w (k w) -> preserves R w (bind ask k).
Proof. intros Hk st. apply Hk. Qed.

Lemma preserves_try_catch {A} (m : M A) (h : string -> M A) :
  preserves R w m -> (forall e, preserves R w (h e)) -> preserves R w (try_catch m h).
Proof.
  intros Hm Hh st. unfold try_catch. specialize (Hm st).
  destruct (m w st) as [[a | e] st1]; cbn [snd] in *; [exact Hm|].
  etransitivity; [exact Hm | apply Hh].
Qed.

End Preserves.

Ltac in_list := repeat first [apply list_elem_of_here | apply list_elem_of_further].

Ltac step_preserves :=
  lazymatch goal with
  | |- PreOrder _ => typeclasses eauto
  | |- preserves _ _ (bind ask _) => apply preserves_ask_bind
  | |- preserves _ _ (bind _ _) => apply preserves_bind; [idtac .. | intros]
  | |- preserves _ _ (try_catch _ _) => apply preserves_try_catch; [idtac .. | intros]
  | |- preserves _ _ (ret _) => apply preserves_ret
  | |- preserves _ _ (throw _) => apply preserves_throw
  | |- preserves _ _ (if ?x then _ else _) => destruct x
  | |- preserves _ _ (match ?x with _ => _ end) => destruct x
  | |- preserves _ _ _ => solve [eauto with probe]
  end.

Ltac preserved := repeat step_preserves.

Section Primitives.
Context `{Host}.

Global Instance frame_preorder w endpoints : PreOrder (frame w endpoints).
Proof.
  split.
  - intros st. repeat split; auto. exists []. split; [by rewrite app_nil_r | constructor].
  - intros st1 st2 st3 (Hl1 & Hh1 & n1 & Hq1 & Hn1) (Hl2 & Hh2 & n2 & Hq2 & Hn2).
    split; [congruence | split; [congruence |]].
    exists (n1 ++ n2)%list. split.
    + rewrite Hq2, Hq1, app_assoc. reflexivity.
    + apply Forall_app; auto.
Qed.

Global Instance same_clock_preorder : PreOrder same_clock.
Proof. split; unfold same_clock; [intros st | intros st1 st2 st3]; congruence. Qed.

Global Instance keeps_preorder k : PreOrder (keeps k).
Proof. split; unfold keeps; [intros st | intros st1 st2 st3]; congruence. Qed.

Lemma frame_same w endpoints st st' :
  loading st' = loading st -> history st' = history st -> requests st' = requests st ->
  frame w endpoints st st'.
Proof.
  intros Hl Hh Hq. split; [|split]; auto.
  exists []. split; [by rewrite app_nil_r | constructor].
Qed.

Lemma frame_Date_now w endpoints : preserves (frame w endpoints) w Date_now.
Proof. intros st. by apply frame_same. Qed.

Lemma frame_setProgress w endpoints p : preserves (frame w endpoints) w (setProgress p).
Proof. intros st. by apply frame_same. Qed.

Lemma frame_setResults w endpoints f : preserves (frame w endpoints) w (setResults f).
Proof. intros st. by apply frame_same. Qed.

Lemma frame_fetch w endpoints (r : Request) (e : string) :
  e ∈ endpoints -> request_url r = API_URL w ++ e ->
  preserves (frame w endpoints) w (fetch r).
Proof.
  intros He Hu st. unfold fetch.
  assert (F : frame w endpoints st (with_request r st)).
  { split; [|split]; auto. eexists. split; [reflexivity|].
    constructor; [eauto | constructor]. }
  destruct (respond w _ _); exact F.
Qed.

Lemma same_clock_setResults w f : preserves same_clock w (setResults f).
Proof. intros st. reflexivity. Qed.

Lemma same_clock_fetch w r : preserves same_clock w (fetch r).
Proof. intros st. unfold fetch. destruct (respond w _ _); reflexivity. Qed.

Lemma keeps_insert w k key v :
  key <> k -> preserves (keeps k) w (setResults (fun prev => <[key := v]> prev)).
Proof. intros Hk st. unfold keeps. cbn. by apply lookup_insert_ne. Qed.

Lemma keeps_setLoading w k b : preserves (keeps k) w (setLoading b).
Proof. intros st. reflexivity. Qed.

Lemma keeps_setHistory w k f : preserves (keeps k) w (setHistory f).
Proof. intros st. reflexivity. Qed.

Lemma keeps_setProgress w k p : preserves (keeps k) w (setProgress p).
Proof. intros st. reflexivity. Qed.

Lemma keeps_Date_now w k : preserves (keeps k) w Date_now.
Proof. intros st. reflexivity. Qed.

Lemma keeps_fetch w k r : preserves (keeps k) w (fetch r).
Proof. intros st. unfold fetch. destruct (respond w _ _); reflexivity. Qed.

End Primitives.

#[export] Hint Resolve frame_Date_now frame_setProgress frame_setResults
  same_clock_setResults same_clock_fetch
  keeps_setLoading keeps_setHistory keeps_setProgress keeps_Date_now keeps_fetch : probe.
#[export] Hint Extern 1 (preserves (keeps _) _ (setResults _)) =>
  apply keeps_insert; first [assumption | discriminate | congruence] : probe.
#[export] Hint Extern 1 (preserves (frame _ _) _ (fetch _)) =>
  eapply frame_fetch; [in_list | reflexivity] : probe.

Section FetchTestFacts.
Context `{Host}.

Lemma preserves_fetchTest (R : relation State) `{!PreOrder R} w endpoint key retries :
  preserves R w (fetch (GET (API_URL w ++ endpoint))) ->
  (forall v, preserves R w (setResults (fun prev => <[key := v]> prev))) ->
  preserves R w (fetchTest endpoint key retries).
Proof.
  intros Hfetch Hset. unfold fetchTest. generalize 0%nat. generalize retries at 2 as fuel.
  induction fuel as [|fuel IH]; intros i; cbn [fetchTest_loop]; preserved.
  unfold fetchTest_iteration, fetchTest_catch, fetchTest_try, response_json, get_property.
  preserved; auto.
Qed.

Lemma frame_fetchTest w endpoints (endpoint key : string) (retries : nat) :
  endpoint ∈ endpoints ->
  preserves (frame w endpoints) w (fetchTest endpoint key retries).
Proof.
  intros He. apply preserves_fetchTest; [typeclasses eauto | | intros; eauto with probe].
  eapply frame_fetch; [exact He | reflexivity].
Qed.

Lemma same_clock_fetchTest w (endpoint key : string) (retries : nat) :
  preserves same_clock w (fetchTest endpoint key retries).
Proof. apply preserves_fetchTest; [typeclasses eauto | | intros]; eauto with probe. Qed.

Lemma keeps_fetchTest w k (endpoint key : string) (retries : nat) :
  key <> k -> preserves (keeps k) w (fetchTest endpoint key retries).
Proof.
  intros Hk. apply preserves_fetchTest; [typeclasses eauto | | intros]; eauto with probe.
Qed.

Lemma fetchTest_iteration_returns w st endpoint key retries i :
  exists b st', fetchTest_iteration endpoint key retries i w st = (Normal b, st').
Proof.
  unfold fetchTest_iteration, try_catch.
  destruct ((fetchTest_try endpoint key ;;; ret true)%probe w st) as [[b | e] s]; [eauto|].
  unfold bind, fetchTest_catch. destruct (i =? retries - 1)%nat; cbn; eauto.
Qed.

Lemma fetchTest_returns w st endpoint key retries :
  exists st', fetchTest endpoint key retries w st = (Normal tt, st').
Proof.
  unfold fetchTest. generalize 0%nat. generalize retries at 2 as fuel. intros fuel. revert st.
  induction fuel as [|fuel IH]; intros st i; cbn [fetchTest_loop].
  - eexists; reflexivity.
  - destruct (i <? retries)%nat; [|eexists; reflexivity].
    unfold bind at 1.
    destruct (fetchTest_iteration_returns w st endpoint key retries i) as (b & st1 & ->).
    destruct b; [eexists; reflexivity|]. apply IH.
Qed.

(** The loop of [fetchTest] stops by its condition: more fuel changes
    nothing. *)
Lemma fetchTest_loop_fuel endpoint key retries extra i w st :
  i <= retries ->
  fetchTest_loop endpoint key retries (retries - i + extra) i w st =
  fetchTest_loop endpoint key retries (retries - i) i w st.
Proof.
  remember (retries - i)%nat as n eqn:Hn. revert i st Hn.
  induction n as [|n IH]; intros i st Hn Hle.
  - assert (i = retries) by lia. subst i.
    destruct extra; cbn [fetchTest_loop Nat.add]; [reflexivity|].
    rewrite Nat.ltb_irrefl. reflexivity.
  - cbn [fetchTest_loop Nat.add].
    destruct (i <? retries)%nat; [|reflexivity].
    unfold bind. destruct (fetchTest_iteration endpoint key retries i w st) as [[b | e] s];
      [|reflexivity].
    destruct b; [reflexivity|]. apply IH; lia.
Qed.

End FetchTestFacts.

(** ** The phases of [fetchData] *)

Section Cycle.
Context `{Host}.

Lemma preserves_read_chunks (R : relation State) `{!PreOrder R} w header pending received pushed :
  (forall p, preserves R w (setProgress p)) ->
  preserves R w (read_chunks header pending received pushed).
Proof.
  intros Hp. revert received pushed.
  induction pending as [|value rest IH]; intros received pushed; cbn [read_chunks]; preserved.
Qed.

Lemma frame_download_probe w endpoints :
  "download" ∈ endpoints -> preserves (frame w endpoints) w download_probe.
Proof.
  intros He. unfold download_probe. preserved.
  apply preserves_read_chunks; [typeclasses eauto | eauto with probe].
Qed.


Lemma frame_upload_probe w endpoints blob :
  "upload" ∈ endpoints -> preserves (frame w endpoints) w (upload_probe blob).
Proof.
  intros He. unfold upload_probe, response_json, get_property. preserved.
Qed.


Lemma frame_scan_probes w endpoints :
  scan_endpoints ⊆ endpoints -> preserves (frame w endpoints) w scan_probes.
Proof.
  intros He. unfold scan_probes.
  preserved; apply frame_fetchTest, He; unfold scan_endpoints; in_list.
Qed.



Lemma bind_normal {A B} (m : M A) (k : A -> M B) w st a st1 :
  m w st = (Normal a, st1) -> bind m k w st = k a w st1.
Proof. intros E. unfold bind. rewrite E. reflexivity. Qed.

Lemma bind_throw {A B} (m : M A) (k : A -> M B) w st e st1 :
  m w st = (Throw e, st1) -> bind m k w st = (Throw e, st1).
Proof. intros E. unfold bind. rewrite E. reflexivity. Qed.

Lemma ping_probe_stores w st :
  exists st',
    ping_probe w st = (Normal tt, st') /\
    results st' !! "ping" =
      Some (JStr (show_Z (clock w (if window_defined w then S (clock_reads st) else clock_reads st)
                          - (if window_defined w then clock w (clock_reads st) else 0))
                  ++ "ms")) /\
    (forall k, k <> "ping" -> results st' !! k = results st !! k) /\
    frame w ["ip"; "ping"] st st'.
Proof.
  unfold ping_probe. unfold bind at 1, ask at 1.
  set (start := if window_defined w then Date_now else ret 0%Z).
  assert (Hs : exists st0, start w st = (Normal (if window_defined w then clock w (clock_reads st) else 0%Z), st0) /\
                 clock_reads st0 = (if window_defined w then S (clock_reads st) else clock_reads st) /\
                 results st0 = results st /\ frame w ["ip"; "ping"] st st0).
  { subst start. destruct (window_defined w); eexists; (split; [reflexivity|]);
      (split; [reflexivity|]); (split; [reflexivity|]); by apply frame_same. }
  destruct Hs as (st0 & E0 & Hc0 & Hr0 & Hf0).
  rewrite (bind_normal _ _ _ _ _ _ E0).
  destruct (fetchTest_returns w st0 "ping" "ping" default_retries) as (st1 & E1).
  rewrite (bind_normal _ _ _ _ _ _ E1).
  pose proof (same_clock_fetchTest w "ping" "ping" default_retries st0) as Hc1.
  pose proof (frame_fetchTest w ["ip"; "ping"] "ping" "ping" default_retries ltac:(in_list) st0) as Hf1.
  rewrite E1 in Hc1, Hf1. cbn [snd] in Hc1, Hf1. unfold same_clock in Hc1.
  eexists. split; [reflexivity|]. cbn [snd results with_results with_clock_read].
  split; [|split].
  - rewrite lookup_insert_eq, Hc1, Hc0. reflexivity.
  - intros k Hk. rewrite lookup_insert_ne by congruence.
    pose proof (keeps_fetchTest w k "ping" "ping" default_retries ltac:(congruence) st0) as Hk1.
    rewrite E1 in Hk1. unfold keeps in Hk1. cbn [snd] in Hk1. congruence.
  - etransitivity; [exact Hf0|]. etransitivity; [exact Hf1|]. by apply frame_same.
Qed.

End Cycle.

(** ** The claims about [fetchTest] and [fetchData] *)

Section Claims.
Context `{Host}.

Lemma fetchTest_try_fails w st endpoint key message :
  attempt_fails key
    (respond w (GET (API_URL w ++ endpoint))
       (earlier_requests (API_URL w ++ endpoint) (requests st))) message ->
  fetchTest_try endpoint key w st =
  (Throw message, with_request (GET (API_URL w ++ endpoint)) st).
Proof.
  intros Hfail.
  unfold fetchTest_try, bind, ask, fetch, response_json, get_property, throw, ret.
  cbv beta iota. cbn [request_url].
  destruct (respond w _ _) as [m | r];
    inversion Hfail as [m' | r' Hok | r' m' Hok Hj | r' Hok Hj]; subst;
    try rewrite Hok; try rewrite Hj; reflexivity.
Qed.

Lemma fetchTest_iteration_fails w st endpoint key retries i message :
  attempt_fails key
    (respond w (GET (API_URL w ++ endpoint))
       (earlier_requests (API_URL w ++ endpoint) (requests st))) message ->
  fetchTest_iteration endpoint key retries i w st =
  (Normal false,
   let st1 := with_request (GET (API_URL w ++ endpoint)) st in
   if (i =? retries - 1)%nat
   then with_results (fun prev => <[key := JStr ("Request failed: " ++ message)]> prev) st1
   else st1).
Proof.
  intros Hfail. unfold fetchTest_iteration, try_catch.
  rewrite (bind_throw _ _ _ _ _ _ (fetchTest_try_fails _ _ _ _ _ Hfail)).
  unfold fetchTest_catch, bind. destruct (i =? retries - 1)%nat; reflexivity.
Qed.

Lemma earlier_requests_snoc url log :
  earlier_requests url (log ++ [GET url]) = S (earlier_requests url log).
Proof.
  unfold earlier_requests. rewrite filter_app, length_app.
  rewrite filter_cons_True by reflexivity. cbn. lia.
Qed.



(** The values [||] takes for false: a missing member, [null], [false], 0
    and the empty string. *)
Lemma falsy_values (v : JsValue) :
  truthy v = false <->
  v = None \/ v = Some JNull \/ v = Some (JBool false) \/
  (exists q, v = Some (JNum q) /\ (q == 0)%Q) \/ v = Some (JStr "").
Proof.
  split.
  - destruct v as [[| [|] | q | s | items | members]|]; cbn; intros E;
      try discriminate; auto.
    + right; right; right; left. exists q. split; [reflexivity|].
      apply Qeq_bool_iff. destruct (Qeq_bool q 0); [reflexivity | discriminate].
    + destruct s; [auto 6 | discriminate].
  - intros [-> | [-> | [-> | [(q & -> & Hq) | ->]]]]; cbn; try reflexivity.
    apply Qeq_bool_iff in Hq. rewrite Hq. reflexivity.
Qed.

Lemma fetchTest_try_error w st endpoint key r data :
  respond w (GET (API_URL w ++ endpoint))
    (earlier_requests (API_URL w ++ endpoint) (requests st)) = Fulfilled r ->
  ok r = true -> json r = Parsed data -> data <> JNull ->
  truthy (property data key) = false ->
  fetchTest_try endpoint key w st =
  (Normal tt,
   with_results
     (fun prev => <[key := JStr ("Error: " ++ to_string (property data "error"))]> prev)
     (with_request (GET (API_URL w ++ endpoint)) st)).
Proof.
  intros E Hok Hj Hnull Hfalsy.
  unfold fetchTest_try, bind, ask, fetch, response_json, get_property, throw, ret.
  cbv beta iota. cbn [request_url]. rewrite E, Hok, Hj. cbn [negb].
  destruct data; try contradiction;
    (destruct (property _ key) as [v|]; [rewrite Hfalsy|]; reflexivity).
Qed.


Lemma append_inj_r (p a b : string) : p ++ a = p ++ b -> a = b.
Proof. induction p as [|c p IH]; cbn; intros E; [exact E | injection E; auto]. Qed.

Lemma earlier_requests_other url log new :
  Forall (fun r => request_url r <> url) new ->
  earlier_requests url (log ++ new) = earlier_requests url log.
Proof.
  intros Hnew. unfold earlier_requests. rewrite filter_app, length_app.
  induction Hnew as [|r new Hr _ IH]; [cbn; lia|].
  rewrite filter_cons_False by exact Hr. exact IH.
Qed.

Lemma latency_phase_returns w st :
  exists st',
    latency_phase w st = (Normal tt, st') /\
    loading st' = true /\
    history st' = history st /\
    results st' !! "ping" =
      Some (JStr (show_Z (clock w (if window_defined w then S (clock_reads st) else clock_reads st)
                          - (if window_defined w then clock w (clock_reads st) else 0))
                  ++ "ms")) /\
    (forall k, k <> "ip" -> k <> "ping" -> results st' !! k = placeholders !! k) /\
    exists new,
      requests st' = (requests st ++ new)%list /\
      Forall (fun r => exists e, e ∈ ["ip"; "ping"] /\ request_url r = API_URL w ++ e) new.
Proof.
  unfold latency_phase.
  set (st1 := with_results (fun _ => placeholders) (with_loading true st)).
  rewrite (bind_normal _ _ w st tt (with_loading true st)) by reflexivity.
  rewrite (bind_normal _ _ w _ tt st1) by reflexivity.
  destruct (fetchTest_returns w st1 "ip" "ip" default_retries) as (st2 & E2).
  unfold ip_probe. rewrite (bind_normal _ _ _ _ _ _ E2).
  pose proof (same_clock_fetchTest w "ip" "ip" default_retries st1) as Hc2.
  pose proof (frame_fetchTest w ["ip"; "ping"] "ip" "ip" default_retries ltac:(in_list) st1)
    as (Hl2 & Hh2 & new2 & Hq2 & Hn2).
  rewrite E2 in Hc2, Hl2, Hh2, Hq2. cbn [snd] in Hc2, Hl2, Hh2, Hq2. unfold same_clock in Hc2.
  destruct (ping_probe_stores w st2) as (st3 & E3 & Hping & Hother & Hl3 & Hh3 & new3 & Hq3 & Hn3).
  exists st3. split; [exact E3|]. split; [|split; [|split; [|split]]].
  - rewrite Hl3, Hl2. reflexivity.
  - rewrite Hh3, Hh2. reflexivity.
  - rewrite Hping, Hc2. reflexivity.
  - intros k Hip Hping'. rewrite Hother by exact Hping'.
    pose proof (keeps_fetchTest w k "ip" "ip" default_retries ltac:(congruence) st1) as Hk.
    rewrite E2 in Hk. unfold keeps in Hk. cbn [snd] in Hk. rewrite Hk. reflexivity.
  - exists (new2 ++ new3)%list. split.
    + rewrite Hq3, Hq2, app_assoc. reflexivity.
    + apply Forall_app; auto.
Qed.

Lemma download_probe_no_body w st r :
  respond w (GET (API_URL w ++ "download"))
    (earlier_requests (API_URL w ++ "download") (requests st)) = Fulfilled r ->
  body r = None ->
  download_probe w st =
  (Throw "Failed to read download stream",
   with_request (GET (API_URL w ++ "download")) (with_clock_read st)).
Proof.
  intros E Hb. unfold download_probe, bind, ask, Date_now, fetch, throw.
  cbv beta iota. cbn [request_url requests with_clock_read]. rewrite E, Hb. reflexivity.
Qed.

(** C10.  When the response to the download request has no body,
    [fetchData] throws "Failed to read download stream": the keys of the
    upload probe and of the six scans hold their placeholders, no history
    entry is appended, [loading] is still true, and the only requests sent
    are to the ip, ping and download endpoints. *)
Theorem missing_body_aborts captured w st r :
  let url := API_URL w ++ "download" in
  respond w (GET url) (earlier_requests url (requests st)) = Fulfilled r ->
  body r = None ->
  exists st',
    fetchData captured w st = (Throw "Failed to read download stream", st') /\
    Forall (fun '(k, v) => results st' !! k = Some (JStr v))
      [("upload", "Testing..."); ("nmap", "Scanning..."); ("ports", "Scanning...");
       ("services", "Detecting..."); ("vuln", "Scanning..."); ("ssl", "Checking...");
       ("firewall", "Checking...")] /\
    history st' = history st /\
    loading st' = true /\
    exists sent,
      requests st' = (requests st ++ sent)%list /\
      Forall (fun q => exists e, e ∈ ["ip"; "ping"; "download"] /\
                                 request_url q = API_URL w ++ e) sent.
Proof.
  intros url E Hb.
  destruct (latency_phase_returns w st) as (st1 & E1 & Hl & Hh & _ & Hk & new & Hq & Hn).
  assert (Ecount : earlier_requests url (requests st1) = earlier_requests url (requests st)).
  { rewrite Hq. apply earlier_requests_other.
    eapply Forall_impl; [exact Hn|]. intros q (e & He & Hu). rewrite Hu. subst url.
    intros Heq%append_inj_r. subst e.
    repeat (apply elem_of_cons in He; destruct He as [He | He]; [discriminate|]).
    inversion He. }
  pose proof (download_probe_no_body w st1 r) as D. fold url in D. rewrite Ecount in D.
  specialize (D E Hb).
  eexists. split.
  { unfold fetchData. rewrite (bind_normal _ _ _ _ _ _ E1).
    unfold throughput_phase. rewrite (bind_throw _ _ _ _ _ _ D). reflexivity. }
  cbn [results history loading requests with_request with_clock_read].
  split; [|split; [|split]]; auto.
  - repeat (constructor; [apply Hk; discriminate|]). constructor.
  - exists (new ++ [GET url])%list. split; [rewrite Hq, app_assoc; reflexivity|].
    apply Forall_app. split.
    + eapply Forall_impl; [exact Hn|]. intros q (e & He & Hu). exists e. split; [|exact Hu].
      apply elem_of_cons in He as [-> | He]; [in_list|].
      apply list_elem_of_singleton in He as ->. in_list.
    + constructor; [|constructor]. exists "download". split; [in_list | reflexivity].
Qed.




(** A cycle that completes appends one entry, made of the clock, of the
    [results] object the closure captured, and of the two speeds measured. *)
Lemma cycle_appends_entry captured w st st' :
  fetchData captured w st = (Normal tt, st') ->
  exists s1 s2 s3 blob downloadSpeed uploadSpeed now,
    latency_phase w st = (Normal tt, s1) /\
    download_probe w s1 = (Normal (blob, downloadSpeed), s2) /\
    upload_probe blob w s2 = (Normal uploadSpeed, s3) /\
    history st' =
      (history st ++ [history_entry captured now downloadSpeed uploadSpeed])%list.
Proof.
  intros Hrun. unfold fetchData in Hrun.
  destruct (latency_phase_returns w st) as (s1 & E1 & _ & Hh1 & _).
  rewrite (bind_normal _ _ _ _ _ _ E1) in Hrun. unfold throughput_phase in Hrun.
  pose proof (frame_download_probe w all_endpoints ltac:(unfold all_endpoints; in_list) s1)
    as (_ & Hh2 & _).
  destruct (download_probe w s1) as [[[blob downloadSpeed] | e] s2] eqn:ED;
    [rewrite (bind_normal _ _ _ _ _ _ ED) in Hrun
    | rewrite (bind_throw _ _ _ _ _ _ ED) in Hrun; discriminate].
  pose proof (frame_upload_probe w all_endpoints blob ltac:(unfold all_endpoints; in_list) s2)
    as (_ & Hh3 & _).
  destruct (upload_probe blob w s2) as [[uploadSpeed | e] s3] eqn:EU;
    [rewrite (bind_normal _ _ _ _ _ _ EU) in Hrun
    | rewrite (bind_throw _ _ _ _ _ _ EU) in Hrun; discriminate].
  assert (Hsub : scan_endpoints ⊆ all_endpoints).
  { unfold scan_endpoints, all_endpoints. intros e He.
    repeat (apply elem_of_cons in He; destruct He as [-> | He]; [in_list|]). inversion He. }
  pose proof (frame_scan_probes w all_endpoints Hsub s3) as (_ & Hh4 & _).
  destruct (scan_probes w s3) as [[[] | e] s4] eqn:ES;
    [rewrite (bind_normal _ _ _ _ _ _ ES) in Hrun
    | rewrite (bind_throw _ _ _ _ _ _ ES) in Hrun; discriminate].
  cbn [snd] in Hh2, Hh3, Hh4.
  unfold bind, Date_now, setHistory, setLoading in Hrun. injection Hrun as <-.
  exists s1, s2, s3, blob, downloadSpeed, uploadSpeed.
  eexists. split; [exact E1 | split; [exact ED | split; [exact EU |]]].
  cbn [history with_loading with_history with_clock_read].
  rewrite Hh4, Hh3, Hh2, Hh1. reflexivity.
Qed.

(** C2 (amended).  When a cycle completes, one entry is appended to the
    history; its [download] and [upload] fields are the speeds computed by
    the download and upload probes of that cycle, rounded to two decimals by
    [parseFloat(speed.toFixed(2))]. *)
Theorem history_entry_rounds_speeds captured w st st' :
  fetchData captured w st = (Normal tt, st') ->
  exists s1 s2 s3 blob downloadSpeed uploadSpeed entry,
    latency_phase w st = (Normal tt, s1) /\
    download_probe w s1 = (Normal (blob, downloadSpeed), s2) /\
    upload_probe blob w s2 = (Normal uploadSpeed, s3) /\
    history st' = (history st ++ [entry])%list /\
    download entry = parseFloat (toFixed 2 downloadSpeed) /\
    upload entry = parseFloat (toFixed 2 uploadSpeed).
Proof.
  intros Hrun.
  destruct (cycle_appends_entry captured w st st' Hrun)
    as (s1 & s2 & s3 & blob & downloadSpeed & uploadSpeed & now & E1 & ED & EU & Hh).
  exists s1, s2, s3, blob, downloadSpeed, uploadSpeed.
  exists (history_entry captured now downloadSpeed uploadSpeed).
  repeat (split; [assumption|]). split; reflexivity.
Qed.

(** The [ping] field of the entry is parsed from the [results] object the
    closure captured; in the cycle started when the component is mounted that
    object is empty, and the field is NaN whatever the ping probe stored. *)
Lemma mount_records_no_ping w st st' :
  mount w st = (Normal tt, st') ->
  exists entry, last (history st') = Some entry /\ ping entry = NaN.
Proof.
  intros Hrun.
  destruct (cycle_appends_entry ∅ w st st' Hrun)
    as (_ & _ & _ & _ & downloadSpeed & uploadSpeed & now & _ & _ & _ & Hh).
  exists (history_entry ∅ now downloadSpeed uploadSpeed).
  rewrite Hh, last_snoc. split; reflexivity.
Qed.

End Claims.

(** ** The orchestrator on the examples *)

Section ProbeExamplesFacts.




Lemma missing_body_aborts_witness :
  body (json_response JNull) = None /\
  exists st',
    @fetchData sample_host ∅ bodiless_world Probe.initialState =
      (Throw "Failed to read download stream", st') /\
    Forall (fun '(k, v) => results st' !! k = Some (JStr v))
      [("upload", "Testing..."); ("nmap", "Scanning..."); ("ports", "Scanning...");
       ("services", "Detecting..."); ("vuln", "Scanning..."); ("ssl", "Checking...");
       ("firewall", "Checking...")] /\
    history st' = history Probe.initialState /\
    loading st' = true /\
    exists sent,
      requests st' = (requests Probe.initialState ++ sent)%list /\
      Forall (fun q => exists e, e ∈ ["ip"; "ping"; "download"] /\
                                 request_url q = API_URL bodiless_world ++ e) sent.
Proof.
  split; [reflexivity|].
  exact (@missing_body_aborts sample_host ∅ bodiless_world Probe.initialState
           (json_response JNull) eq_refl eq_refl).
Defined.

Lemma history_entry_rounds_speeds_witness :
  let st' := snd (@fetchData sample_host ∅ sample_world Probe.initialState) in
  @fetchData sample_host ∅ sample_world Probe.initialState = (Normal tt, st') /\
  exists s1 s2 s3 blob downloadSpeed uploadSpeed entry,
    @latency_phase sample_host sample_world Probe.initialState = (Normal tt, s1) /\
    @download_probe sample_host sample_world s1 = (Normal (blob, downloadSpeed), s2) /\
    @upload_probe sample_host blob sample_world s2 = (Normal uploadSpeed, s3) /\
    history st' = (history Probe.initialState ++ [entry])%list /\
    download entry = @parseFloat (@toFixed sample_host 2 downloadSpeed) /\
    upload entry = @parseFloat (@toFixed sample_host 2 uploadSpeed).
Proof.
  intros st'.
  assert (Hrun : @fetchData sample_host ∅ sample_world Probe.initialState = (Normal tt, st'))
    by (vm_compute; reflexivity).
  split; [exact Hrun|].
  exact (@history_entry_rounds_speeds sample_host ∅ sample_world Probe.initialState st' Hrun).
Defined.

(** C2 as stated fails on the first cycle of the example: the ping stored is
    "42ms" and the entry has NaN (the closure of the first render reads
    [results = {}]); the download probe measures 0.95367431640625 MB/s and
    the entry has 0.95. *)
Lemma history_entry_not_exact :
  exists s1 s2 s3 blob downloadSpeed uploadSpeed st' entry,
    @latency_phase sample_host sample_world Probe.initialState = (Normal tt, s1) /\
    @download_probe sample_host sample_world s1 = (Normal (blob, downloadSpeed), s2) /\
    @upload_probe sample_host blob sample_world s2 = (Normal uploadSpeed, s3) /\
    @mount sample_host sample_world Probe.initialState = (Normal tt, st') /\
    history st' = [entry] /\
    results st' !! "ping" = Some (JStr "42ms") /\
    ping entry = NaN /\
    strict_eq downloadSpeed (Fin 0.95367431640625) /\
    strict_eq (download entry) (Fin 0.95) /\
    ~ (strict_eq (ping entry) (parseFloat (@to_string sample_host (results st' !! "ping"))) /\
       strict_eq (download entry) downloadSpeed /\
       strict_eq (upload entry) uploadSpeed).
Proof.
  do 8 eexists.
  split; [vm_compute; reflexivity|].
  split; [vm_compute; reflexivity|].
  split; [vm_compute; reflexivity|].
  split; [vm_compute; reflexivity|].
  split; [vm_compute; reflexivity|].
  split; [vm_compute; reflexivity|].
  split; [vm_compute; reflexivity|].
  split; [vm_compute; reflexivity|].
  split; [vm_compute; reflexivity|].
  intros [Hping _]. vm_compute in Hping. exact Hping.
Qed.

End ProbeExamplesFacts.

(** * More about the estimator *)

Section RoundingFacts.
Context `{Host}.

Lemma parseFloat_minus (s : string) :
  parseFloat (String "-" s) = num_neg (read_unsigned s).
Proof. reflexivity. Qed.

Lemma read_unsigned_fixed_digits (n : Z) :
  read_unsigned (fixed_digits 2 n) = parseFloat (fixed_digits 2 n).
Proof.
  unfold fixed_digits.
  destruct (show_N_print (Z.to_N (n / 10 ^ Z.of_nat 2))) as [-> Hnil].
  rewrite parseFloat_digits by exact Hnil. reflexivity.
Qed.

Lemma toFixed_fixed_neg (q : Q) :
  (q < 0)%Q -> (- inject_Z (10 ^ 21) < q)%Q ->
  toFixed 2 (Fin q) = String "-" (fixed_digits 2 (round_scaled 2 (- q))).
Proof.
  intros H0 H1. unfold toFixed.
  destruct (Qle_bool (inject_Z (10 ^ 21)) (Qabs q)) eqn:E.
  - apply Qle_bool_iff in E. rewrite Qabs_neg in E by lra. lra.
  - unfold Qltb. destruct (Qle_bool 0 q) eqn:E0; [|reflexivity].
    apply Qle_bool_iff in E0. lra.
Qed.

(** [parseFloat(x.toFixed(2))] for [|x| < 10^21]: a finite number of the sign
    of [x], at most half a hundredth away from [x]. *)
Lemma rounded (q : Q) :
  (- inject_Z (10 ^ 21) < q)%Q -> (q < inject_Z (10 ^ 21))%Q ->
  exists v : Q,
    parseFloat (toFixed 2 (Fin q)) = Fin v /\
    (Qabs (v - q) <= 1 # 200)%Q /\
    ((0 <= q)%Q -> (v == inject_Z (round_scaled 2 q) / 100)%Q /\ (0 <= v)%Q) /\
    ((q <= 0)%Q -> (v <= 0)%Q).
Proof.
  intros Hlo Hhi. destruct (Qlt_le_dec q 0) as [Hneg | Hpos].
  - rewrite toFixed_fixed_neg, parseFloat_minus, read_unsigned_fixed_digits by assumption.
    destruct (fixed_digits_parse (round_scaled 2 (- q))) as (v & -> & Hv).
    { apply round_scaled_nonneg. lra. }
    exists (- v)%Q. split; [reflexivity|].
    pose proof (round_scaled_close (- q)) as Hc.
    pose proof (round_scaled_nonneg (- q) ltac:(lra)) as Hn.
    apply Qabs_Qle_condition in Hc.
    assert (Hn' : (0 <= inject_Z (round_scaled 2 (- q)))%Q)
      by (change 0%Q with (inject_Z 0); rewrite <- Zle_Qle; exact Hn).
    set (n := inject_Z (round_scaled 2 (- q))) in *. clearbody n.
    split; [|split].
    + apply Qabs_Qle_condition. inv_consts. lra.
    + intros Hq. lra.
    + intros _. inv_consts. lra.
  - destruct (parseFloat_toFixed q Hpos Hhi) as (v & -> & Hv).
    exists v. split; [reflexivity|].
    pose proof (round_scaled_close q) as Hc.
    pose proof (round_scaled_nonneg q Hpos) as Hn.
    apply Qabs_Qle_condition in Hc.
    assert (Hn' : (0 <= inject_Z (round_scaled 2 q))%Q)
      by (change 0%Q with (inject_Z 0); rewrite <- Zle_Qle; exact Hn).
    split; [|split].
    + apply Qabs_Qle_condition.
      set (n := inject_Z (round_scaled 2 q)) in *. clearbody n. inv_consts. lra.
    + intros _. split; [exact Hv|].
      set (n := inject_Z (round_scaled 2 q)) in *. clearbody n. inv_consts. lra.
    + intros Hq. rewrite Hv. unfold round_scaled.
      rewrite (Qfloor_comp _ (1 # 2)); [vm_compute; discriminate|].
      assert (E : (q == 0)%Q) by lra. rewrite E. reflexivity.
Qed.

(** Rounding to hundredths keeps a number between integer bounds. *)
Lemma round_scaled_bounds (q : Q) (lo hi : Z) :
  (inject_Z lo <= q)%Q -> (q <= inject_Z hi)%Q ->
  (inject_Z lo <= inject_Z (round_scaled 2 q) / 100 <= inject_Z hi)%Q.
Proof.
  intros Hlo Hhi. unfold round_scaled. change (inject_Z (10 ^ Z.of_nat 2)) with 100%Q.
  assert (H1 : (100 * lo <= Qfloor (q * 100 + (1 # 2)))%Z).
  { rewrite <- (Qfloor_Z (100 * lo)). apply Qfloor_resp_le.
    rewrite inject_Z_mult. change (inject_Z 100) with 100%Q. lra. }
  assert (H2 : (Qfloor (q * 100 + (1 # 2)) <= 100 * hi)%Z).
  { assert (E : Qfloor (inject_Z (100 * hi) + (1 # 2)) = (100 * hi)%Z).
    { apply Z.le_antisymm.
      - apply Z.lt_succ_r. rewrite Zlt_Qlt.
        eapply Qle_lt_trans; [apply Qfloor_le|].
        unfold Z.succ. rewrite inject_Z_plus. change (inject_Z 1) with 1%Q. lra.
      - rewrite <- (Qfloor_Z (100 * hi)) at 1. apply Qfloor_resp_le. lra. }
    rewrite <- E. apply Qfloor_resp_le.
    rewrite inject_Z_mult. change (inject_Z 100) with 100%Q. lra. }
  rewrite Zle_Qle, inject_Z_mult in H1, H2. change (inject_Z 100) with 100%Q in H1, H2.
  set (n := inject_Z (Qfloor (q * 100 + (1 # 2)))) in *. clearbody n.
  inv_consts. split; lra.
Qed.

End RoundingFacts.

Section EstimatorMore.
Import Estimator EstimatorExamples EstimatorUI.
Context `{Host}.

(** What [convertFromBytes] returns on a finite number of bytes of magnitude
    below 10^21: the loop leaves [s] in the unit of index [k], and the size
    returned is [s] rounded to hundredths. *)
Lemma convertFromBytes_spec (c : Q) :
  (- inject_Z (10 ^ 21) < c)%Q -> (c < inject_Z (10 ^ 21))%Q ->
  exists (s : Q) (k : nat) (v : Q),
    normalized c s k /\
    convertFromBytes (Fin c) = {| cv_size := Fin v; cv_unit := nth k units bytes |} /\
    (Qabs (v - s) <= 1 # 200)%Q /\
    ((0 <= s)%Q -> (v == inject_Z (round_scaled 2 s) / 100)%Q /\ (0 <= v)%Q) /\
    ((s <= 0)%Q -> (v <= 0)%Q).
Proof.
  intros Hlo Hhi. unfold convertFromBytes.
  destruct (convert_loop_normalized c) as (s & k & -> & Hn).
  assert (Hlo' : (- 1000000000000000000000 < c)%Q) by exact Hlo.
  assert (Hhi' : (c < 1000000000000000000000)%Q) by exact Hhi.
  destruct (rounded s) as (v & Ev & Hv).
  - change (inject_Z (10 ^ 21)) with 1000000000000000000000%Q.
    destruct Hn; inv_consts; lra.
  - change (inject_Z (10 ^ 21)) with 1000000000000000000000%Q.
    destruct Hn; inv_consts; lra.
  - exists s, k, v. rewrite Ev. split; [exact Hn | split; [reflexivity | exact Hv]].
Qed.

(** X1. On a number of bytes [b] with [0 <= b < 10^21], [convertFromBytes]
    returns a finite size that is not negative; the unit is bytes exactly
    when [b < 1024]; in a unit other than bytes the size is at least 1 and
    [b] is at least one unit; in a unit other than TB the size is at most
    1024 and [b] is less than 1024 units. *)
Theorem convertFromBytes_range (b : Q) :
  (0 <= b)%Q -> (b < inject_Z (10 ^ 21))%Q ->
  let r := convertFromBytes (Fin b) in
  exists v : Q,
    cv_size r = Fin v /\ (0 <= v)%Q /\
    (cv_unit r = bytes <-> (b < 1024)%Q) /\
    (cv_unit r <> bytes -> (1 <= v)%Q /\ (unitBytes (cv_unit r) <= b)%Q) /\
    (cv_unit r <> TB -> (v <= 1024)%Q /\ (b < 1024 * unitBytes (cv_unit r))%Q).
Proof.
  intros H0 Hhi r. subst r.
  assert (Hhi' : (b < 1000000000000000000000)%Q) by exact Hhi.
  assert (Hlo : (- inject_Z (10 ^ 21) < b)%Q)
    by (change (inject_Z (10 ^ 21)) with 1000000000000000000000%Q; lra).
  destruct (convertFromBytes_spec b Hlo Hhi) as (s & k & v & Hn & -> & _ & Hpos & _).
  cbn [cv_size cv_unit]. exists v.
  assert (Hs : (0 <= s)%Q) by (destruct Hn; inv_consts; lra).
  destruct (Hpos Hs) as (Hv & Hv0).
  split; [reflexivity | split; [exact Hv0 | split; [|split]]].
  - destruct Hn; cbn [nth units]; split; intros E; try discriminate; try reflexivity;
      try assumption; exfalso; inv_consts; lra.
  - intros Hu.
    assert (H1 : (1 <= s)%Q) by (destruct Hn; [contradiction Hu; reflexivity | ..]; inv_consts; lra).
    split.
    + pose proof (round_scaled_bounds s 1 (10 ^ 21)
                    ltac:(exact H1)
                    ltac:(change (inject_Z (10 ^ 21)) with 1000000000000000000000%Q;
                          destruct Hn; inv_consts; lra)) as [Hb _].
      rewrite Hv. exact Hb.
    + destruct Hn; cbn [nth units]; unit_consts; inv_consts; lra.
  - intros Hu.
    assert (H1 : (s <= 1024)%Q)
      by (destruct Hn; [..| contradiction Hu; reflexivity]; inv_consts; lra).
    split.
    + pose proof (round_scaled_bounds s 0 1024 ltac:(exact Hs) ltac:(exact H1)) as [_ Hb].
      rewrite Hv. exact Hb.
    + destruct Hn; cbn [nth units]; unit_consts; inv_consts; try lra.
      contradiction Hu; reflexivity.
Qed.


Lemma num_le_fin (a b : Q) : (a <= b)%Q -> num_le (Fin a) (Fin b).
Proof.
  intros Hab. unfold num_le. cbn.
  destruct (Qlt_le_dec a b) as [Hlt | Hge]; [left; exact Hlt | right; lra].
Qed.

Lemma sum_nonneg (fs : list FileData) :
  Forall (fun f => exists q, fd_size f = Fin q /\ (0 <= q)%Q) fs ->
  forall acc : Q, (0 <= acc)%Q ->
  exists t,
    fold_left (fun sum file => (sum + convertToBytes (fd_size file) (fd_unit file))%num)
      fs (Fin acc) = Fin t /\ (0 <= t)%Q.
Proof.
  induction 1 as [|f fs (q & Hq & Hq0) _ IH]; intros acc Hacc; cbn [fold_left]; [eauto|].
  unfold convertToBytes. rewrite Hq. destruct (fd_unit f); cbn; apply IH; nra.
Qed.

Lemma totalSize_nonneg (fs : list FileData) :
  Forall (fun f => exists q, fd_size f = Fin q /\ (0 <= q)%Q) fs ->
  exists t, totalSize fs = Fin t /\ (0 <= t)%Q.
Proof. intros Hfs. apply (sum_nonneg fs Hfs 0%Q). lra. Qed.

(** The size [handleEstimate] feeds to the time formula, in a plausible state
    with a compression rate between 0 and 100: a finite number that is not
    negative, and not above 1024 when there are less than 1024^5 bytes. *)
Lemma finalSize_plausible (st : EstimatorState) (total down up latency rate : Q) :
  plausible st total down up latency -> compression_rate st rate ->
  (0 <= rate <= 100)%Q ->
  exists v, cv_size (convertFromBytes (compressedSize st)) = Fin v /\ (0 <= v)%Q /\
            ((total < 1024 ^ 5)%Q -> (v <= 1024)%Q).
Proof.
  intros [Hsizes [Ht Hbound] _ _ _] Hrate Hr.
  destruct (totalSize_nonneg _ Hsizes) as (t & Ht' & Ht0).
  rewrite Ht in Ht'. injection Ht' as <-.
  assert (Hbound' : (total < 1000000000000000000000)%Q) by exact Hbound.
  assert (Hc : exists c, compressedSize st = Fin c /\ (c == total * (1 - rate / 100))%Q).
  { unfold compressedSize, compression_rate in *. rewrite Ht.
    destruct (compressionEnabled st).
    - rewrite Hrate, num_div_fin by lra. cbn. eexists; split; [reflexivity | ring].
    - subst rate. eexists; split; [reflexivity | field]. }
  destruct Hc as (c & -> & Hc).
  assert (Hc0 : (0 <= c)%Q) by (rewrite Hc; inv_consts; nra).
  assert (Hc1 : (c <= total)%Q) by (rewrite Hc; inv_consts; nra).
  destruct (convertFromBytes_spec c) as (s & k & v & Hn & -> & _ & Hpos & _).
  { change (inject_Z (10 ^ 21)) with 1000000000000000000000%Q. lra. }
  { change (inject_Z (10 ^ 21)) with 1000000000000000000000%Q. lra. }
  cbn [cv_size]. exists v.
  assert (Hs : (0 <= s)%Q) by (destruct Hn; inv_consts; lra).
  destruct (Hpos Hs) as (Hv & Hv0).
  split; [reflexivity | split; [exact Hv0|]].
  intros Hsmall. change (1024 ^ 5)%Q with 1125899906842624%Q in Hsmall.
  assert (H1 : (s <= 1024)%Q) by (destruct Hn; inv_consts; lra).
  pose proof (round_scaled_bounds s 0 1024 ltac:(exact Hs) ltac:(exact H1)) as [_ Hb].
  rewrite Hv. exact Hb.
Qed.

(** The time formula on finite numbers and a speed that is not zero. *)
Lemma time_formula (st : EstimatorState) (v e l : Q) :
  ~ (e == 0)%Q -> networkLatency st = Fin l ->
  calculateTimeWithLatency st (Fin v) (Fin e) =
  Fin (v * 8 / (e * 1024 * 1024) + l / 1000).
Proof.
  intros He Hl. unfold calculateTimeWithLatency, calculateTime. rewrite Hl.
  cbn [num_mul]. rewrite !num_div_fin by lra. reflexivity.
Qed.

Lemma effectiveSpeed_factor (st : EstimatorState) (d : Q) :
  exists e, effectiveSpeed st (Fin d) = Fin e /\ (e == d * modifierFactor st)%Q.
Proof.
  unfold effectiveSpeed, modifierFactor.
  destruct (isVpnEnabled st), (connectionType st), (transferType st);
    cbn [num_mul]; eexists; (split; [reflexivity|]); ring.
Qed.

Lemma modifierFactor_pos (st : EstimatorState) : (0 < modifierFactor st)%Q.
Proof.
  unfold modifierFactor.
  destruct (isVpnEnabled st), (connectionType st), (transferType st); reflexivity.
Qed.


Lemma plausible_with_modifiers (st : EstimatorState) (total down up latency : Q) vpn conn tr :
  plausible st total down up latency ->
  plausible (with_modifiers vpn conn tr st) total down up latency.
Proof. intros [a b c d e]. split; assumption. Qed.

(** The two times of [handleEstimate] in a plausible state whose final size
    is [v]. *)
Lemma times_formula (st : EstimatorState) (total down up latency v : Q) :
  plausible st total down up latency ->
  cv_size (convertFromBytes (compressedSize st)) = Fin v ->
  exists td tu : Q,
    downloadTime (handleEstimate st) = Fin td /\
    uploadTime (handleEstimate st) = Fin tu /\
    (td == v * 8 / (down * modifierFactor st * 1024 * 1024) + latency / 1000)%Q /\
    (tu == v * 8 / (up * modifierFactor st * 1024 * 1024) + latency / 1000)%Q.
Proof.
  intros [_ _ [Hd Hd0] [Hu Hu0] Hl] Hv.
  pose proof (modifierFactor_pos st) as Hk.
  destruct (effectiveSpeed_factor st down) as (ed & Hed & Eed).
  destruct (effectiveSpeed_factor st up) as (eu & Heu & Eeu).
  assert (Hed0 : ~ (ed == 0)%Q) by (rewrite Eed; nra).
  assert (Heu0 : ~ (eu == 0)%Q) by (rewrite Eeu; nra).
  unfold handleEstimate. cbn [downloadTime uploadTime].
  rewrite Hv, Hd, Hu, Hed, Heu.
  rewrite (time_formula st v ed latency Hed0 Hl), (time_formula st v eu latency Heu0 Hl).
  exists (v * 8 / (ed * 1024 * 1024) + latency / 1000)%Q,
         (v * 8 / (eu * 1024 * 1024) + latency / 1000)%Q.
  split; [reflexivity | split; [reflexivity | split]].
  - rewrite Eed. reflexivity.
  - rewrite Eeu. reflexivity.
Qed.




Lemma div_le_antitone (a k1 k2 : Q) :
  (0 <= a)%Q -> (0 < k2)%Q -> (k2 <= k1)%Q -> (a / k1 <= a / k2)%Q.
Proof.
  intros Ha Hk2 Hk. apply Qle_shift_div_l; [exact Hk2|].
  assert (E : (a / k1 * k2 == a * k2 / k1)%Q) by (field; lra).
  rewrite E. apply Qle_shift_div_r; [lra | nra].
Qed.

Lemma time_antitone (v d k1 k2 l : Q) :
  (0 <= v)%Q -> (0 < d)%Q -> (0 < k2)%Q -> (k2 <= k1)%Q ->
  (v * 8 / (d * k1 * 1024 * 1024) + l <= v * 8 / (d * k2 * 1024 * 1024) + l)%Q.
Proof.
  intros Hv Hd Hk2 Hk.
  assert (H1 : (v * 8 / (d * k1 * 1024 * 1024) <= v * 8 / (d * k2 * 1024 * 1024))%Q)
    by (apply div_le_antitone; nra).
  lra.
Qed.


(** X3. In a plausible state with a compression rate between 0 and 100, and
    whatever the two other modifiers are: turning the VPN on never shortens
    the download and upload times [handleEstimate] produces, switching from
    wifi to ethernet never lengthens them, and switching from a direct
    transfer to P2P never shortens them. *)
Theorem modifiers_direction (st : EstimatorState) (total down up latency rate : Q)
    (vpn : bool) (conn : ConnectionType) (tr : TransferType) :
  plausible st total down up latency -> compression_rate st rate ->
  (0 <= rate <= 100)%Q ->
  let download := fun v c t => downloadTime (handleEstimate (with_modifiers v c t st)) in
  let upload := fun v c t => uploadTime (handleEstimate (with_modifiers v c t st)) in
  num_le (download false conn tr) (download true conn tr) /\
  num_le (download vpn ethernet tr) (download vpn wifi tr) /\
  num_le (download vpn conn direct) (download vpn conn p2p) /\
  num_le (upload false conn tr) (upload true conn tr) /\
  num_le (upload vpn ethernet tr) (upload vpn wifi tr) /\
  num_le (upload vpn conn direct) (upload vpn conn p2p).
Proof.
  intros Hst Hrate Hr download upload. subst download upload. cbv beta.
  destruct (finalSize_plausible st total down up latency rate Hst Hrate Hr)
    as (v & Hv & Hv0 & _).
  assert (Horder : forall v1 c1 t1 v2 c2 t2,
    (modifierFactor (with_modifiers v2 c2 t2 st)
     <= modifierFactor (with_modifiers v1 c1 t1 st))%Q ->
    num_le (downloadTime (handleEstimate (with_modifiers v1 c1 t1 st)))
           (downloadTime (handleEstimate (with_modifiers v2 c2 t2 st))) /\
    num_le (uploadTime (handleEstimate (with_modifiers v1 c1 t1 st)))
           (uploadTime (handleEstimate (with_modifiers v2 c2 t2 st)))).
  { intros v1 c1 t1 v2 c2 t2 Hk.
    destruct (times_formula _ total down up latency v
                (plausible_with_modifiers st _ _ _ _ v1 c1 t1 Hst) Hv)
      as (td1 & tu1 & -> & -> & Hd1 & Hu1).
    destruct (times_formula _ total down up latency v
                (plausible_with_modifiers st _ _ _ _ v2 c2 t2 Hst) Hv)
      as (td2 & tu2 & -> & -> & Hd2 & Hu2).
    destruct Hst as [_ _ [_ Hd0] [_ Hu0] _].
    pose proof (modifierFactor_pos (with_modifiers v2 c2 t2 st)) as Hk2.
    split; apply num_le_fin.
    - rewrite Hd1, Hd2. apply time_antitone; assumption.
    - rewrite Hu1, Hu2. apply time_antitone; assumption. }
  assert (Hfactor : forall (v1 v2 : bool) (c1 c2 : ConnectionType) (t1 t2 : TransferType),
    (v1 = v2 \/ (v1 = false /\ v2 = true)) ->
    (c1 = c2 \/ (c1 = ethernet /\ c2 = wifi)) ->
    (t1 = t2 \/ (t1 = direct /\ t2 = p2p)) ->
    (modifierFactor (with_modifiers v2 c2 t2 st)
     <= modifierFactor (with_modifiers v1 c1 t1 st))%Q).
  { intros v1 v2 c1 c2 t1 t2 A B C. unfold modifierFactor, with_modifiers.
    cbn [isVpnEnabled connectionType transferType setIsVpnEnabled setConnectionType
         setTransferType].
    destruct A as [<- | [-> ->]], B as [<- | [-> ->]], C as [<- | [-> ->]];
      try destruct v1; try destruct c1; try destruct t1; lra. }
  split; [|split; [|split; [|split; [|split]]]];
    apply Horder, Hfactor; auto.
Qed.



Lemma selection_sum (fs : list BrowserFile) (acc : Q) :
  exists t : Q,
    fold_left (fun sum file => (sum + convertToBytes (fd_size file) (fd_unit file))%num)
      (map toFileData fs) (Fin acc) = Fin t /\
    (t == acc + inject_Z (selectionBytes fs))%Q.
Proof.
  revert acc. induction fs as [|f fs IH]; intros acc; cbn [map fold_left selectionBytes fold_right].
  - exists acc. split; [reflexivity|]. change (inject_Z 0) with 0%Q. ring.
  - destruct (IH (acc + inject_Z (Z.of_N (bf_size f)) * 1)%Q) as (t & Et & Ht).
    exists t. split; [exact Et|].
    change (fold_right (fun f acc => (Z.of_N (bf_size f) + acc)%Z) 0%Z fs) with (selectionBytes fs).
    rewrite Ht, inject_Z_plus. ring.
Qed.

Lemma selection_sizes (fs : list BrowserFile) :
  Forall (fun f => exists q, fd_size f = Fin q /\ (0 <= q)%Q) (map toFileData fs).
Proof.
  induction fs as [|f fs IH]; cbn [map]; constructor; [|exact IH].
  eexists. split; [reflexivity|].
  change 0%Q with (inject_Z 0). rewrite <- Zle_Qle. lia.
Qed.

(** X5. Selecting files replaces the files of the state, each with its size
    in bytes: whatever was selected before, the total size is then the sum
    of the sizes of the selected files, and with finite positive speeds, a
    finite latency and less than 10^21 bytes selected the state is plausible.
    Dropping the files on the drop zone leaves the estimator in the same
    state as selecting them, and stops the dragging. *)
Theorem selection_plausible (fs : list BrowserFile) (st : EstimatorState)
    (down up latency : Q) :
  downloadSpeed st = Fin down -> (0 < down)%Q ->
  uploadSpeed st = Fin up -> (0 < up)%Q ->
  networkLatency st = Fin latency ->
  (selectionBytes fs < 10 ^ 21)%Z ->
  exists total : Q,
    (total == inject_Z (selectionBytes fs))%Q /\
    plausible (handleFileChange (Some fs) st) total down up latency /\
    forall z : DropZone, estimator z = st ->
      handleDrop fs z =
      {| isDragging := false; estimator := handleFileChange (Some fs) st |}.
Proof.
  intros Hd Hd0 Hu Hu0 Hl Hlt.
  destruct (selection_sum fs 0) as (t & Et & Ht).
  exists t. split; [rewrite Ht; ring | split].
  - split; cbn [handleFileChange setFiles files downloadSpeed uploadSpeed networkLatency].
    + apply selection_sizes.
    + split; [exact Et|]. rewrite Ht, Qplus_0_l, <- Zlt_Qlt. exact Hlt.
    + split; assumption.
    + split; assumption.
    + exact Hl.
  - intros z <-. reflexivity.
Qed.


End EstimatorMore.

Section EstimatorMoreExamples.
Import Estimator EstimatorExamples EstimatorUI.

Lemma compression_example_plausible (rate : Q) :
  plausible (compression_example rate) (0 + 2097152 * 1) 1 2 0.
Proof.
  split.
  - constructor; [|constructor]. exists 2097152%Q. split; [reflexivity | discriminate].
  - split; reflexivity.
  - split; reflexivity.
  - split; reflexivity.
  - reflexivity.
Qed.

(** 1536 bytes are 1.5 KB. *)
Lemma convertFromBytes_range_witness :
  let r := @convertFromBytes sample_host (Fin 1536) in
  exists v : Q,
    cv_size r = Fin v /\ (0 <= v)%Q /\
    (cv_unit r = bytes <-> (1536 < 1024)%Q) /\
    (cv_unit r <> bytes -> (1 <= v)%Q /\ (unitBytes (cv_unit r) <= 1536)%Q) /\
    (cv_unit r <> TB -> (v <= 1024)%Q /\ (1536 < 1024 * unitBytes (cv_unit r))%Q).
Proof.
  apply (@convertFromBytes_range sample_host 1536); [discriminate | reflexivity].
Defined.


Lemma modifiers_direction_witness :
  let st := compression_example 50 in
  let download := fun v c t =>
    downloadTime (@handleEstimate sample_host (with_modifiers v c t st)) in
  let upload := fun v c t =>
    uploadTime (@handleEstimate sample_host (with_modifiers v c t st)) in
  num_le (download false wifi direct) (download true wifi direct) /\
  num_le (download false ethernet direct) (download false wifi direct) /\
  num_le (download false wifi direct) (download false wifi p2p) /\
  num_le (upload false wifi direct) (upload true wifi direct) /\
  num_le (upload false ethernet direct) (upload false wifi direct) /\
  num_le (upload false wifi direct) (upload false wifi p2p).
Proof.
  intros st.
  apply (@modifiers_direction sample_host st (0 + 2097152 * 1) 1 2 0 50 false wifi direct).
  - apply compression_example_plausible.
  - reflexivity.
  - split; discriminate.
Defined.


Lemma selection_plausible_witness :
  exists total : Q,
    (total == inject_Z (selectionBytes sample_selection))%Q /\
    plausible (handleFileChange (Some sample_selection) initialState) total 1 2 50 /\
    forall z : DropZone, estimator z = initialState ->
      handleDrop sample_selection z =
      {| isDragging := false;
         estimator := handleFileChange (Some sample_selection) initialState |}.
Proof.
  apply (selection_plausible sample_selection initialState 1 2 50);
    reflexivity.
Defined.


End EstimatorMoreExamples.

(** * More about the probe orchestrator *)

Section FetchTestMore.
Import ProbeView.
Context `{Host}.

Lemma fetchTest_try_value w st endpoint key r data v :
  respond w (GET (API_URL w ++ endpoint))
    (earlier_requests (API_URL w ++ endpoint) (requests st)) = Fulfilled r ->
  ok r = true -> json r = Parsed data ->
  property data key = Some v -> truthy (Some v) = true ->
  fetchTest_try endpoint key w st =
  (Normal tt,
   with_results (fun prev => <[key := v]> prev)
     (with_request (GET (API_URL w ++ endpoint)) st)).
Proof.
  intros E Hok Hj Hp Ht.
  unfold fetchTest_try, bind, ask, fetch, response_json, get_property, throw, ret.
  cbv beta iota. cbn [request_url]. rewrite E, Hok, Hj. cbn [negb].
  destruct data; cbn [property] in Hp; try discriminate Hp.
  cbn [property]. rewrite Hp, Ht. reflexivity.
Qed.

Lemma fetchTest_iteration_value w st endpoint key retries i r data v :
  respond w (GET (API_URL w ++ endpoint))
    (earlier_requests (API_URL w ++ endpoint) (requests st)) = Fulfilled r ->
  ok r = true -> json r = Parsed data ->
  property data key = Some v -> truthy (Some v) = true ->
  fetchTest_iteration endpoint key retries i w st =
  (Normal true,
   with_results (fun prev => <[key := v]> prev)
     (with_request (GET (API_URL w ++ endpoint)) st)).
Proof.
  intros E Hok Hj Hp Ht. unfold fetchTest_iteration, try_catch.
  rewrite (bind_normal _ _ _ _ _ _ (fetchTest_try_value _ _ _ _ _ _ _ E Hok Hj Hp Ht)).
  reflexivity.
Qed.

Lemma fetchTest_iteration_error w st endpoint key retries i r data :
  respond w (GET (API_URL w ++ endpoint))
    (earlier_requests (API_URL w ++ endpoint) (requests st)) = Fulfilled r ->
  ok r = true -> json r = Parsed data -> data <> JNull ->
  truthy (property data key) = false ->
  fetchTest_iteration endpoint key retries i w st =
  (Normal true,
   with_results
     (fun prev => <[key := JStr ("Error: " ++ to_string (property data "error"))]> prev)
     (with_request (GET (API_URL w ++ endpoint)) st)).
Proof.
  intros E Hok Hj Hn Ht. unfold fetchTest_iteration, try_catch.
  rewrite (bind_normal _ _ _ _ _ _ (fetchTest_try_error _ _ _ _ _ _ E Hok Hj Hn Ht)).
  reflexivity.
Qed.

(** The state after [k] requests for [r] and the store of [v] under [key]. *)
Lemma iter_requests (key : string) (v : Json) (r : Request) (k : nat) (st : State) :
  with_results (fun prev => <[key := v]> prev) (Nat.iter k (with_request r) st) =
  after_probe key v (replicate k r) st.
Proof.
  unfold after_probe, with_results.
  assert (E : Nat.iter k (with_request r) st =
              {| results := results st; loading := loading st; progress := progress st;
                 history := history st; requests := (requests st ++ replicate k r)%list;
                 clock_reads := clock_reads st |}).
  { induction k as [|k IH].
    - destruct st. cbn. rewrite app_nil_r. reflexivity.
    - rewrite Nat.iter_succ, IH. unfold with_request. cbn [results loading progress history
        requests clock_reads].
      rewrite replicate_S_end, app_assoc. reflexivity. }
  rewrite E. reflexivity.
Qed.

Lemma fetchTest_loop_done endpoint key retries fuel i w st :
  retries <= i -> fetchTest_loop endpoint key retries fuel i w st = (Normal tt, st).
Proof.
  intros Hi. destruct fuel; cbn [fetchTest_loop]; [reflexivity|].
  destruct (Nat.ltb_spec i retries); [lia | reflexivity].
Qed.



(** What one iteration of the loop of [fetchTest] does, in two states with
    as many earlier requests to the endpoint: it sends one request, and
    either stores a value other than [null] and returns, or fails and stores
    a message in the last iteration only. *)
Lemma fetchTest_iteration_two w st st' endpoint key retries i :
  let url := API_URL w ++ endpoint in
  earlier_requests url (requests st') = earlier_requests url (requests st) ->
  (exists v, v <> JNull /\
     forall s, s = st \/ s = st' ->
       fetchTest_iteration endpoint key retries i w s =
       (Normal true, with_results (fun prev => <[key := v]> prev) (with_request (GET url) s))) \/
  (exists message,
     forall s, s = st \/ s = st' ->
       fetchTest_iteration endpoint key retries i w s =
       (Normal false,
        if (i =? retries - 1)%nat
        then with_results (fun prev => <[key := JStr ("Request failed: " ++ message)]> prev)
               (with_request (GET url) s)
        else with_request (GET url) s)).
Proof.
  intros url Hcount. subst url.
  assert (Hfails : forall s message, s = st \/ s = st' ->
            attempt_fails key
              (respond w (GET (API_URL w ++ endpoint))
                 (earlier_requests (API_URL w ++ endpoint) (requests st))) message ->
            fetchTest_iteration endpoint key retries i w s =
            (Normal false,
             if (i =? retries - 1)%nat
             then with_results
                    (fun prev => <[key := JStr ("Request failed: " ++ message)]> prev)
                    (with_request (GET (API_URL w ++ endpoint)) s)
             else with_request (GET (API_URL w ++ endpoint)) s)).
  { intros s message [-> | ->] Hm; [|rewrite <- Hcount in Hm];
      exact (fetchTest_iteration_fails w _ endpoint key retries i message Hm). }
  assert (Hvalue : forall s r data v, s = st \/ s = st' ->
            respond w (GET (API_URL w ++ endpoint))
              (earlier_requests (API_URL w ++ endpoint) (requests st)) = Fulfilled r ->
            ok r = true -> json r = Parsed data ->
            property data key = Some v -> truthy (Some v) = true ->
            fetchTest_iteration endpoint key retries i w s =
            (Normal true,
             with_results (fun prev => <[key := v]> prev)
               (with_request (GET (API_URL w ++ endpoint)) s))).
  { intros s r data v [-> | ->] Hr; [|rewrite <- Hcount in Hr];
      exact (fetchTest_iteration_value w _ endpoint key retries i r data v Hr). }
  assert (Herror : forall s r data, s = st \/ s = st' ->
            respond w (GET (API_URL w ++ endpoint))
              (earlier_requests (API_URL w ++ endpoint) (requests st)) = Fulfilled r ->
            ok r = true -> json r = Parsed data -> data <> JNull ->
            truthy (property data key) = false ->
            fetchTest_iteration endpoint key retries i w s =
            (Normal true,
             with_results
               (fun prev => <[key := JStr ("Error: " ++ to_string (property data "error"))]> prev)
               (with_request (GET (API_URL w ++ endpoint)) s))).
  { intros s r data [-> | ->] Hr; [|rewrite <- Hcount in Hr];
      exact (fetchTest_iteration_error w _ endpoint key retries i r data Hr). }
  destruct (respond w (GET (API_URL w ++ endpoint))
              (earlier_requests (API_URL w ++ endpoint) (requests st))) as [m | r].
  { right. exists m. intros s Hs. apply Hfails; [exact Hs | constructor]. }
  destruct (ok r) eqn:Hok.
  2: { right. eexists. intros s Hs. apply Hfails; [exact Hs | apply fails_status; exact Hok]. }
  destruct (json r) as [data | m] eqn:Hj.
  2: { right. exists m. intros s Hs.
       apply Hfails; [exact Hs | apply fails_unparsable; assumption]. }
  assert (Hnull : data = JNull \/ data <> JNull)
    by (destruct data; (left; reflexivity) || (right; discriminate)).
  destruct Hnull as [-> | Hn].
  { right. eexists. intros s Hs. apply Hfails; [exact Hs | apply fails_null; assumption]. }
  destruct (truthy (property data key)) eqn:Ht.
  - destruct (property data key) as [v|] eqn:Hp; [|discriminate Ht].
    left. exists v. split; [intros ->; discriminate Ht|].
    intros s Hs. exact (Hvalue s r data v Hs eq_refl Hok Hj Hp Ht).
  - left. eexists. split; [|intros s Hs; exact (Herror s r data Hs eq_refl Hok Hj Hn Ht)].
    discriminate.
Qed.

Lemma fetchTest_loop_two endpoint key retries w :
  forall fuel i st st',
    i < retries -> retries <= i + fuel ->
    let url := API_URL w ++ endpoint in
    earlier_requests url (requests st') = earlier_requests url (requests st) ->
    exists (v : Json) (k : nat),
      v <> JNull /\ 1 <= k <= retries - i /\
      forall s, s = st \/ s = st' ->
        fetchTest_loop endpoint key retries fuel i w s =
        (Normal tt,
         with_results (fun prev => <[key := v]> prev) (Nat.iter k (with_request (GET url)) s)).
Proof.
  induction fuel as [|fuel IH]; intros i st st' Hi Hfuel url Hcount; [lia|]. subst url.
  cbn [fetchTest_loop]. destruct (Nat.ltb_spec i retries); [|lia].
  destruct (fetchTest_iteration_two w st st' endpoint key retries i Hcount)
    as [(v & Hv & E) | (m & E)].
  - exists v, 1. split; [exact Hv | split; [lia|]]. intros s Hs.
    rewrite (bind_normal _ _ _ _ _ _ (E s Hs)). reflexivity.
  - destruct (Nat.eqb_spec i (retries - 1)) as [Hlast | Hmore].
    + exists (JStr ("Request failed: " ++ m)), 1.
      split; [discriminate | split; [lia|]]. intros s Hs.
      rewrite (bind_normal _ _ _ _ _ _ (E s Hs)). cbv beta iota.
      rewrite fetchTest_loop_done by lia. reflexivity.
    + destruct (IH (S i) (with_request (GET (API_URL w ++ endpoint)) st)
                  (with_request (GET (API_URL w ++ endpoint)) st') ltac:(lia) ltac:(lia))
        as (v & k & Hv & Hk & E').
      { cbn [requests with_request]. rewrite !earlier_requests_snoc, Hcount. reflexivity. }
      exists v, (S k). split; [exact Hv | split; [lia|]]. intros s Hs.
      rewrite (bind_normal _ _ _ _ _ _ (E s Hs)). cbv beta iota.
      rewrite Nat.iter_succ_r. apply E'. destruct Hs as [-> | ->]; auto.
Qed.

(** The value [fetchTest] stores and the number of requests it sends depend
    on the state only through the number of earlier requests to its
    endpoint. *)
Lemma fetchTest_two w st st' endpoint key retries :
  0 < retries ->
  let url := API_URL w ++ endpoint in
  earlier_requests url (requests st') = earlier_requests url (requests st) ->
  exists (v : Json) (k : nat),
    v <> JNull /\ 1 <= k <= retries /\
    fetchTest endpoint key retries w st =
      (Normal tt, after_probe key v (replicate k (GET url)) st) /\
    fetchTest endpoint key retries w st' =
      (Normal tt, after_probe key v (replicate k (GET url)) st').
Proof.
  intros Hr url Hcount. unfold fetchTest.
  destruct (fetchTest_loop_two endpoint key retries w retries 0 st st' Hr ltac:(lia) Hcount)
    as (v & k & Hv & Hk & E).
  exists v, k. split; [exact Hv | split; [lia|]].
  rewrite (E st), (E st') by auto. rewrite !iter_requests. split; reflexivity.
Qed.


Lemma earlier_requests_replicate url url' k log :
  url' <> url ->
  earlier_requests url (log ++ replicate k (GET url')) = earlier_requests url log.
Proof.
  intros Hne. apply earlier_requests_other.
  apply Forall_forall. intros r Hr. apply elem_of_replicate in Hr. destruct Hr as [-> _].
  exact Hne.
Qed.

Lemma after_probe_inj key v v' r n n' st :
  after_probe key v (replicate n r) st = after_probe key v' (replicate n' r) st ->
  v = v' /\ n = n'.
Proof.
  intros E. split.
  - apply (f_equal (fun s => results s !! key)) in E. cbn [results after_probe] in E.
    rewrite !lookup_insert_eq in E. congruence.
  - apply (f_equal (fun s => length (requests s))) in E. cbn [requests after_probe] in E.
    rewrite !length_app, !length_replicate in E. lia.
Qed.

(** X9. Two probes on different endpoints and different keys commute: run
    in either order they store the same two values and send the same numbers
    of requests to their endpoints; the result maps are equal, and the
    request logs differ by the order of the requests only.  (This is what
    lets the six scans of [Promise.all] be run one after the other.) *)
Theorem probes_commute w st endpoint1 key1 endpoint2 key2 retries :
  endpoint1 <> endpoint2 -> key1 <> key2 -> 0 < retries ->
  let request1 := GET (API_URL w ++ endpoint1) in
  let request2 := GET (API_URL w ++ endpoint2) in
  exists (v1 v2 : Json) (n1 n2 : nat),
    (fetchTest endpoint1 key1 retries ;;; fetchTest endpoint2 key2 retries)%probe w st =
      (Normal tt,
       after_probe key2 v2 (replicate n2 request2)
         (after_probe key1 v1 (replicate n1 request1) st)) /\
    (fetchTest endpoint2 key2 retries ;;; fetchTest endpoint1 key1 retries)%probe w st =
      (Normal tt,
       after_probe key1 v1 (replicate n1 request1)
         (after_probe key2 v2 (replicate n2 request2) st)) /\
    <[key2 := v2]> (<[key1 := v1]> (results st)) =
    <[key1 := v1]> (<[key2 := v2]> (results st)).
Proof.
  intros He Hk Hr request1 request2. subst request1 request2.
  assert (Hurl : API_URL w ++ endpoint1 <> API_URL w ++ endpoint2)
    by (intros E; apply append_inj_r in E; contradiction).
  destruct (fetchTest_two w st st endpoint1 key1 retries Hr eq_refl)
    as (v1 & n1 & _ & _ & E1 & _).
  destruct (fetchTest_two w st st endpoint2 key2 retries Hr eq_refl)
    as (v2 & n2 & _ & _ & E2 & _).
  destruct (fetchTest_two w st
              (after_probe key2 v2 (replicate n2 (GET (API_URL w ++ endpoint2))) st)
              endpoint1 key1 retries Hr) as (v1' & n1' & _ & _ & E1a & E1b).
  { cbn [requests after_probe]. apply earlier_requests_replicate. congruence. }
  destruct (fetchTest_two w st
              (after_probe key1 v1 (replicate n1 (GET (API_URL w ++ endpoint1))) st)
              endpoint2 key2 retries Hr) as (v2' & n2' & _ & _ & E2a & E2b).
  { cbn [requests after_probe]. apply earlier_requests_replicate. congruence. }
  rewrite E1 in E1a. apply (f_equal snd) in E1a. cbn [snd] in E1a.
  apply after_probe_inj in E1a as [<- <-].
  rewrite E2 in E2a. apply (f_equal snd) in E2a. cbn [snd] in E2a.
  apply after_probe_inj in E2a as [<- <-].
  exists v1, v2, n1, n2. split; [|split].
  - rewrite (bind_normal _ _ _ _ _ _ E1). exact E2b.
  - rewrite (bind_normal _ _ _ _ _ _ E2). exact E1b.
  - apply insert_insert_ne. congruence.
Qed.

End FetchTestMore.

Section DownloadUploadMore.
Import ProbeView.
Context `{Host}.

Lemma read_chunks_run header pending :
  forall received pushed w st,
    read_chunks header pending received pushed w st =
    (Normal (pushed ++ pending)%list,
     match pending with
     | [] => st
     | _ =>
         with_progress
           (of_Z (received + Z.of_nat (length (concat pending)))
            / match header with Some s => string_to_number s | None => Fin 0 end
            * Fin 100)%num st
     end).
Proof.
  induction pending as [|value rest IH]; intros received pushed w st; cbn [read_chunks].
  - rewrite app_nil_r. reflexivity.
  - rewrite (bind_normal _ _ w st tt
               (with_progress
                  (of_Z (received + Z.of_nat (length value))
                   / match header with Some s => string_to_number s | None => Fin 0 end
                   * Fin 100)%num st)) by reflexivity.
    rewrite IH, <- app_assoc. cbn [app]. f_equal.
    destruct rest as [|value' rest].
    + cbn [concat]. rewrite app_nil_r. reflexivity.
    + cbn [concat]. rewrite (length_app value), Nat2Z.inj_add, Z.add_assoc. reflexivity.
Qed.






Lemma upload_probe_returns blob w st :
  exists speed st', upload_probe blob w st = (Normal speed, st').
Proof.
  unfold upload_probe, try_catch.
  match goal with |- context [match ?m w st with _ => _ end] => destruct (m w st) as [[a | e] s] end;
    eexists _, _; reflexivity.
Qed.


(** X11. When the upload request fails (it is rejected, the status is not
    OK, or the body is not JSON or is [null]), the upload probe does not
    throw: it returns the speed 0 and stores "Upload failed: " followed by the
    message of the error under [upload]; nothing else changes but the request
    sent and the clock reading taken.  For a status that is not OK the message
    is itself "Upload failed: " followed by the status text. *)
Theorem upload_failure_recorded blob w st message :
  let request := POST (API_URL w ++ "upload") (show_Z (clock w (clock_reads st))) blob in
  let answer := respond w request (earlier_requests (API_URL w ++ "upload") (requests st)) in
  upload_failure answer = Some message ->
  upload_probe blob w st =
  (Normal (Fin 0),
   after_probe "upload" (JStr ("Upload failed: " ++ message)) [request] (with_clock_read st)) /\
  (forall r, answer = Fulfilled r -> ok r = false ->
     message = "Upload failed: " ++ statusText r).
Proof.
  intros request answer Hfail. subst request answer. split.
  - unfold upload_failure in Hfail.
    unfold upload_probe, try_catch, bind, ask, Date_now, fetch, response_json, get_property,
      throw, ret, setResults.
    cbv beta iota. cbn [request_url requests with_clock_read].
    destruct (respond w _ _) as [m | r].
    + injection Hfail as <-. reflexivity.
    + destruct (ok r); cbn [negb] in *; [|injection Hfail as <-; reflexivity].
      destruct (json r) as [data | m].
      * destruct data; try discriminate Hfail. injection Hfail as <-. reflexivity.
      * injection Hfail as <-. reflexivity.
  - intros r Hr Hok. unfold upload_failure in Hfail. rewrite Hr, Hok in Hfail.
    cbn [negb] in Hfail. congruence.
Qed.


End DownloadUploadMore.

Section OutcomeMore.
Import ProbeView.
Context `{Host}.

#[local] Instance stays_defined_preorder k : PreOrder (stays_defined k).
Proof. split; [intros st; unfold stays_defined; auto | intros a b c; unfold stays_defined; auto]. Qed.

Lemma stays_defined_same w k {A} (m : M A) :
  (forall st, results (snd (m w st)) = results st) -> preserves (stays_defined k) w m.
Proof. intros E st. unfold stays_defined. rewrite E. auto. Qed.

Lemma stays_defined_insert w k key v :
  v <> JNull -> preserves (stays_defined k) w (setResults (fun prev => <[key := v]> prev)).
Proof.
  intros Hv st. unfold stays_defined. cbn [snd setResults results with_results].
  destruct (String.eqb_spec key k) as [-> | Hne].
  - rewrite lookup_insert_eq. intros _. destruct v; [contradiction | reflexivity..].
  - rewrite lookup_insert_ne by exact Hne. auto.
Qed.

Lemma stays_defined_fetchTest w k endpoint key :
  preserves (stays_defined k) w (fetchTest endpoint key default_retries).
Proof.
  intros st.
  destruct (fetchTest_two w st st endpoint key default_retries
              ltac:(unfold default_retries; lia) eq_refl) as (v & n & Hv & _ & -> & _).
  cbn [snd].
  pose proof (stays_defined_insert w k key v Hv st) as Hi.
  unfold stays_defined in *. cbn [snd setResults results with_results after_probe] in *.
  exact Hi.
Qed.

Lemma stays_defined_fetch w k r : preserves (stays_defined k) w (fetch r).
Proof. intros st. unfold fetch, stays_defined. destruct (respond w _ _); auto. Qed.

Lemma stays_defined_start w k :
  preserves (stays_defined k) w (if window_defined w then Date_now else ret 0%Z).
Proof. intros st. destruct (window_defined w); unfold stays_defined; auto. Qed.

#[local] Hint Resolve stays_defined_fetchTest stays_defined_fetch stays_defined_start : probe.
#[local] Hint Extern 1 (preserves (stays_defined _) _ (setResults _)) =>
  apply stays_defined_insert; discriminate : probe.
#[local] Hint Extern 1 (preserves (stays_defined _) _ _) =>
  apply stays_defined_same; reflexivity : probe.




End OutcomeMore.

Section ViewMore.
Import ProbeView.
Context `{Host}.

Lemma show_Z_nonneg (n : Z) : (0 <= n)%Z -> show_Z n = show_N (Z.to_N n).
Proof. destruct n; [reflexivity | reflexivity | lia]. Qed.

Lemma show_Z_neg (p : positive) : show_Z (Z.neg p) = String "-" (show_N (N.pos p)).
Proof. reflexivity. Qed.

(** The digits of [m] followed by "ms" read back as [m]. *)
Lemma read_unsigned_ms (m : N) :
  strict_eq (read_unsigned (show_N m ++ "ms")) (Fin (inject_Z (Z.of_N m))) /\
  parseFloat (show_N m ++ "ms") = read_unsigned (show_N m ++ "ms").
Proof.
  destruct (show_N_print m) as [-> Hnil].
  rewrite parseFloat_digits by exact Hnil. split; [|reflexivity].
  rewrite read_unsigned_digits by exact Hnil.
  unfold read_decimal. rewrite read_digits_print by reflexivity.
  assert (Ev : Z.of_uint (N.to_uint m) = Z.of_N m).
  { unfold Z.of_uint. change (Pos.of_uint ?d) with (N.of_uint d).
    rewrite DecimalN.Unsigned.of_to. reflexivity. }
  destruct (N.to_uint m) eqn:Ed; [contradiction | ..];
    cbn [strict_eq]; rewrite Ev;
    change (read_exponent "ms") with 0%Z; change (Z.of_uint Nil) with 0%Z;
    change (inject_Z (10 ^ Z.of_nat (nb_digits Nil))) with 1%Q;
    change (Qpower 10 0) with 1%Q; change (inject_Z 0) with 0%Q; field.
Qed.

(** [parseFloat] reads the number of milliseconds back from the text of a
    ping. *)
Lemma parseFloat_ping (n : Z) : strict_eq (parseFloat (show_Z n ++ "ms")) (of_Z n).
Proof.
  destruct (Z_lt_le_dec n 0) as [Hneg | Hpos].
  - destruct n as [|p|p]; try lia. rewrite show_Z_neg.
    change (parseFloat (String "-" (show_N (N.pos p)) ++ "ms"))
      with (num_neg (read_unsigned (show_N (N.pos p) ++ "ms"))).
    destruct (read_unsigned_ms (N.pos p)) as [Hv _].
    destruct (read_unsigned _); cbn [strict_eq num_neg] in *; try contradiction.
    unfold of_Z. cbn [strict_eq]. rewrite Hv.
    change (Z.neg p) with (- Z.pos p)%Z. rewrite inject_Z_opp. reflexivity.
  - rewrite show_Z_nonneg by exact Hpos.
    destruct (read_unsigned_ms (Z.to_N n)) as [Hv ->].
    rewrite Z2N.id in Hv by exact Hpos. exact Hv.
Qed.










End ViewMore.

Section PingBar.
Import ProbeView.
Context `{Host}.

(** X17. The ping bar, for a ping of [n] milliseconds as the ping probe
    stores it ([n] not negative): the width is [n / 5] percent up to 500 ms
    and 100 from there on; the red and blue components are between 0 and 255
    and add up to 255; from 102 ms on the bar is fully red. *)
Theorem ping_bar_saturates (results : gmap string Json) (n : Z) :
  results !! "ping" = Some (JStr (show_Z n ++ "ms")) -> (0 <= n)%Z ->
  exists width red blue : Q,
    ping_bar_width results = Fin width /\
    ping_bar_red results = Fin red /\
    ping_bar_blue results = Fin blue /\
    (0 <= width <= 100)%Q /\ (0 <= red <= 255)%Q /\ (0 <= blue <= 255)%Q /\
    (red + blue == 255)%Q /\
    ((n < 500)%Z -> (width == inject_Z n / 5)%Q) /\
    ((500 <= n)%Z -> (width == 100)%Q) /\
    ((102 <= n)%Z -> (red == 255)%Q /\ (blue == 0)%Q).
Proof.
  intros Hping Hn.
  pose proof (parseFloat_ping n) as Hv.
  unfold ping_bar_width, ping_bar_red, ping_bar_blue, ping_number.
  rewrite Hping. cbn [to_string json_to_string].
  destruct (parseFloat (show_Z n ++ "ms")) as [v | | |]; cbn [strict_eq of_Z] in Hv;
    try contradiction.
  assert (Hv0 : (0 <= v)%Q).
  { rewrite Hv. change 0%Q with (inject_Z 0). rewrite <- Zle_Qle. exact Hn. }
  assert (H500 : (n < 500)%Z -> (v < 500)%Q).
  { intros Hlt. rewrite Hv. change 500%Q with (inject_Z 500). rewrite <- Zlt_Qlt. exact Hlt. }
  assert (H500' : (500 <= n)%Z -> (500 <= v)%Q).
  { intros Hle. rewrite Hv. change 500%Q with (inject_Z 500). rewrite <- Zle_Qle. exact Hle. }
  assert (H102 : (102 <= n)%Z -> (102 <= v)%Q).
  { intros Hle. rewrite Hv. change 102%Q with (inject_Z 102). rewrite <- Zle_Qle. exact Hle. }
  rewrite !num_div_fin by lra. cbn [num_mul num_sub num_add num_neg].
  unfold Math_min, Math_max, num_geb.
  destruct (Qle_bool (v / 5) 100) eqn:Ew;
    destruct (Qle_bool (v / 2 * 5) 255) eqn:Er;
    destruct (Qle_bool (255 + - (v / 2 * 5)) 0) eqn:Eb;
    try apply Qle_bool_iff in Ew; try apply Qle_bool_false in Ew;
    try apply Qle_bool_iff in Er; try apply Qle_bool_false in Er;
    try apply Qle_bool_iff in Eb; try apply Qle_bool_false in Eb;
    eexists _, _, _; (split; [reflexivity|]); (split; [reflexivity|]); (split; [reflexivity|]);
    rewrite <- ?Hv; inv_consts;
    (split; [lra|]); (split; [lra|]); (split; [lra|]); (split; [lra|]);
    (split; [intros A; apply H500 in A; lra|]);
    (split; [intros A; apply H500' in A; lra|]);
    intros A; apply H102 in A; split; lra.
Qed.

End PingBar.

Section Budget.
Import ProbeView.
Context `{Host}.

Lemma fetchTest_sends w st endpoint key :
  exists (k : nat) st',
    1 <= k <= 3 /\
    fetchTest endpoint key default_retries w st = (Normal tt, st') /\
    requests st' = (requests st ++ replicate k (GET (API_URL w ++ endpoint)))%list /\
    progress st' = progress st.
Proof.
  destruct (fetchTest_two w st st endpoint key default_retries
              ltac:(unfold default_retries; lia) eq_refl) as (v & k & _ & Hk & E & _).
  exists k. eexists. split; [exact Hk | split; [exact E | split; reflexivity]].
Qed.

Lemma ping_probe_sends w st :
  exists (k : nat) st',
    1 <= k <= 3 /\
    ping_probe w st = (Normal tt, st') /\
    requests st' = (requests st ++ replicate k (GET (API_URL w ++ "ping")))%list /\
    progress st' = progress st.
Proof.
  unfold ping_probe. unfold bind at 1, ask at 1.
  set (start := if window_defined w then Date_now else ret 0%Z).
  assert (Hs : exists t st0, start w st = (Normal t, st0) /\ requests st0 = requests st /\
                             progress st0 = progress st).
  { subst start. destruct (window_defined w); eexists _, _; repeat split. }
  destruct Hs as (t & st0 & E0 & Hq0 & Hp0).
  rewrite (bind_normal _ _ _ _ _ _ E0).
  destruct (fetchTest_sends w st0 "ping" "ping") as (k & st1 & Hk & E1 & Hq1 & Hp1).
  rewrite (bind_normal _ _ _ _ _ _ E1).
  exists k. eexists. split; [exact Hk | split; [reflexivity|]].
  cbn [requests progress with_results with_clock_read]. rewrite Hq1, Hq0, Hp1, Hp0.
  split; reflexivity.
Qed.

Lemma download_probe_sends w st :
  requests (snd (download_probe w st)) = (requests st ++ [GET (API_URL w ++ "download")])%list.
Proof.
  unfold download_probe.
  unfold bind at 1, ask at 1. unfold bind at 1, Date_now at 1.
  unfold bind at 1, fetch at 1. cbn [request_url requests with_clock_read].
  destruct (respond w _ _) as [m | r]; [reflexivity|].
  destruct (body r) as [stream|]; [|reflexivity].
  unfold bind at 1. rewrite read_chunks_run.
  destruct (failure stream); destruct (chunks stream); reflexivity.
Qed.

Lemma upload_probe_sends blob w st :
  exists request,
    requests (snd (upload_probe blob w st)) = (requests st ++ [request])%list /\
    progress (snd (upload_probe blob w st)) = progress st.
Proof.
  exists (POST (API_URL w ++ "upload") (show_Z (clock w (clock_reads st))) blob).
  unfold upload_probe, try_catch, bind, ask, Date_now, fetch, response_json, get_property,
    throw, ret, setResults.
  cbv beta iota. cbn [request_url requests with_clock_read].
  destruct (respond w _ _) as [m | r]; [split; reflexivity|].
  destruct (ok r); cbn [negb]; [|split; reflexivity].
  destruct (json r) as [data | m]; [|split; reflexivity].
  destruct data; try (split; reflexivity);
    (destruct (truthy (property _ "uploadTime")); split; reflexivity).
Qed.

Lemma scan_probes_sends w st :
  exists new st',
    scan_probes w st = (Normal tt, st') /\
    requests st' = (requests st ++ new)%list /\
    6 <= length new <= 18 /\
    progress st' = progress st.
Proof.
  unfold scan_probes.
  destruct (fetchTest_sends w st "nmap" "nmap") as (k1 & s1 & Hk1 & E1 & Hq1 & Hp1).
  rewrite (bind_normal _ _ _ _ _ _ E1).
  destruct (fetchTest_sends w s1 "open-ports" "ports") as (k2 & s2 & Hk2 & E2 & Hq2 & Hp2).
  rewrite (bind_normal _ _ _ _ _ _ E2).
  destruct (fetchTest_sends w s2 "services" "services") as (k3 & s3 & Hk3 & E3 & Hq3 & Hp3).
  rewrite (bind_normal _ _ _ _ _ _ E3).
  destruct (fetchTest_sends w s3 "vuln-scan" "vuln") as (k4 & s4 & Hk4 & E4 & Hq4 & Hp4).
  rewrite (bind_normal _ _ _ _ _ _ E4).
  destruct (fetchTest_sends w s4 "ssl-check" "ssl") as (k5 & s5 & Hk5 & E5 & Hq5 & Hp5).
  rewrite (bind_normal _ _ _ _ _ _ E5).
  destruct (fetchTest_sends w s5 "firewall-check" "firewall") as (k6 & s6 & Hk6 & E6 & Hq6 & Hp6).
  eexists _, s6. split; [exact E6|].
  rewrite Hq6, Hq5, Hq4, Hq3, Hq2, Hq1, <- !app_assoc.
  split; [reflexivity|]. rewrite !length_app, !length_replicate.
  split; [lia | congruence].
Qed.

(** X18. A cycle sends a bounded number of requests: at least 10 and at
    most 26 when [fetchData] returns (one to three to each of the ip, ping and
    six scan endpoints, one download and one upload), and at least 3 and at
    most 7 when it throws. *)
Theorem request_budget captured w st :
  exists new st',
    snd (fetchData captured w st) = st' /\
    requests st' = (requests st ++ new)%list /\
    match fst (fetchData captured w st) with
    | Normal _ => 10 <= length new <= 26
    | Throw _ => 3 <= length new <= 7
    end.
Proof.
  set (s0 := with_results (fun _ => placeholders) (with_loading true st)).
  assert (E : fetchData captured w st =
              ((ip_probe ;;; ping_probe) ;;; throughput_phase captured)%probe w s0).
  { unfold fetchData, latency_phase, bind, setLoading, setResults. reflexivity. }
  rewrite E. clear E.
  destruct (fetchTest_sends w s0 "ip" "ip") as (k1 & s1 & Hk1 & E1 & Hq1 & _).
  destruct (ping_probe_sends w s1) as (k2 & s2 & Hk2 & E2 & Hq2 & _).
  assert (El : (ip_probe ;;; ping_probe)%probe w s0 = (Normal tt, s2))
    by (unfold ip_probe; rewrite (bind_normal _ _ _ _ _ _ E1); exact E2).
  rewrite (bind_normal _ _ _ _ _ _ El). unfold throughput_phase.
  pose proof (download_probe_sends w s2) as Hq3.
  destruct (download_probe w s2) as [[[blob speed] | e] s3] eqn:E3; cbn [snd] in Hq3.
  2: { rewrite (bind_throw _ _ _ _ _ _ E3). cbn [fst snd].
       eexists _, s3. split; [reflexivity|].
       rewrite Hq3, Hq2, Hq1, <- !app_assoc. split; [reflexivity|].
       rewrite !length_app, !length_replicate. cbn [length]. lia. }
  rewrite (bind_normal _ _ _ _ _ _ E3). cbv beta iota.
  destruct (upload_probe_sends blob w s3) as (request & Hq4 & _).
  destruct (upload_probe_returns blob w s3) as (uploadSpeed & s4 & E4).
  rewrite E4 in Hq4. cbn [snd] in Hq4.
  rewrite (bind_normal _ _ _ _ _ _ E4).
  destruct (scan_probes_sends w s4) as (new & s5 & E5 & Hq5 & Hn5 & _).
  rewrite (bind_normal _ _ _ _ _ _ E5).
  unfold bind, Date_now, setHistory, setLoading. cbn [fst snd].
  eexists _, _. split; [reflexivity|].
  cbn [requests with_loading with_history with_clock_read].
  rewrite Hq5, Hq4, Hq3, Hq2, Hq1, <- !app_assoc. split; [reflexivity|].
  rewrite !length_app, !length_replicate. cbn [length]. lia.
Qed.

(** X19. Only the download probe moves the progress bar: the first half of
    [fetchData] leaves the progress as it was (a refresh does not reset it),
    and the progress when [fetchData] ends is the progress the download probe
    left. *)
Theorem progress_follows_download captured w st :
  exists s1,
    latency_phase w st = (Normal tt, s1) /\
    progress s1 = progress st /\
    progress (snd (fetchData captured w st)) = progress (snd (download_probe w s1)).
Proof.
  set (s0 := with_results (fun _ => placeholders) (with_loading true st)).
  destruct (fetchTest_sends w s0 "ip" "ip") as (k1 & s1 & Hk1 & E1 & _ & Hp1).
  destruct (ping_probe_sends w s1) as (k2 & s2 & Hk2 & E2 & _ & Hp2).
  assert (El : latency_phase w st = (Normal tt, s2)).
  { unfold latency_phase.
    rewrite (bind_normal _ _ w st tt (with_loading true st)) by reflexivity.
    rewrite (bind_normal _ _ w _ tt s0) by reflexivity.
    unfold ip_probe. rewrite (bind_normal _ _ _ _ _ _ E1). exact E2. }
  exists s2. split; [exact El | split; [rewrite Hp2, Hp1; reflexivity|]].
  unfold fetchData. rewrite (bind_normal _ _ _ _ _ _ El). unfold throughput_phase.
  destruct (download_probe w s2) as [[[blob speed] | e] s3] eqn:E3; cbn [snd].
  2: { rewrite (bind_throw _ _ _ _ _ _ E3). reflexivity. }
  rewrite (bind_normal _ _ _ _ _ _ E3). cbv beta iota.
  destruct (upload_probe_sends blob w s3) as (request & _ & Hp4).
  destruct (upload_probe_returns blob w s3) as (uploadSpeed & s4 & E4).
  rewrite E4 in Hp4. cbn [snd] in Hp4.
  rewrite (bind_normal _ _ _ _ _ _ E4).
  destruct (scan_probes_sends w s4) as (new & s5 & E5 & _ & _ & Hp5).
  rewrite (bind_normal _ _ _ _ _ _ E5).
  unfold bind, Date_now, setHistory, setLoading. cbn [snd].
  cbn [progress with_loading with_history with_clock_read]. congruence.
Qed.

End Budget.

(** ** The rest of the orchestrator on the examples *)

Section ProbeMoreExamples.
Import ProbeView.




(** The backend cannot be reached: "Upload failed: Failed to fetch". *)
Lemma upload_failure_recorded_witness :
  let w := unreachable_world in
  let st := Probe.initialState in
  let request := POST (API_URL w ++ "upload") (show_Z (clock w (clock_reads st))) [] in
  let answer := respond w request (earlier_requests (API_URL w ++ "upload") (requests st)) in
  @upload_probe sample_host [] w st =
  (Normal (Fin 0),
   after_probe "upload" (JStr ("Upload failed: " ++ "Failed to fetch")) [request]
     (with_clock_read st)) /\
  (forall r, answer = Fulfilled r -> ok r = false ->
     "Failed to fetch" = "Upload failed: " ++ statusText r).
Proof.
  intros w st.
  apply (@upload_failure_recorded sample_host [] w st "Failed to fetch"). reflexivity.
Defined.



(** A ping of 42 ms. *)
Lemma ping_bar_saturates_witness :
  let results : gmap string Json := {["ping" := JStr "42ms"]} in
  exists width red blue : Q,
    @ping_bar_width sample_host results = Fin width /\
    @ping_bar_red sample_host results = Fin red /\
    @ping_bar_blue sample_host results = Fin blue /\
    (0 <= width <= 100)%Q /\ (0 <= red <= 255)%Q /\ (0 <= blue <= 255)%Q /\
    (red + blue == 255)%Q /\
    ((42 < 500)%Z -> (width == inject_Z 42 / 5)%Q) /\
    ((500 <= 42)%Z -> (width == 100)%Q) /\
    ((102 <= 42)%Z -> (red == 255)%Q /\ (blue == 0)%Q).
Proof.
  intros results.
  apply (@ping_bar_saturates sample_host results 42); [reflexivity | lia].
Defined.

(** The ip and ping probes on the example, in both orders. *)
Lemma probes_commute_witness :
  let w := sample_world in
  let st := Probe.initialState in
  let request1 := GET (API_URL w ++ "ip") in
  let request2 := GET (API_URL w ++ "ping") in
  exists (v1 v2 : Json) (n1 n2 : nat),
    (@fetchTest sample_host "ip" "ip" default_retries ;;;
     @fetchTest sample_host "ping" "ping" default_retries)%probe w st =
      (Normal tt,
       after_probe "ping" v2 (replicate n2 request2)
         (after_probe "ip" v1 (replicate n1 request1) st)) /\
    (@fetchTest sample_host "ping" "ping" default_retries ;;;
     @fetchTest sample_host "ip" "ip" default_retries)%probe w st =
      (Normal tt,
       after_probe "ip" v1 (replicate n1 request1)
         (after_probe "ping" v2 (replicate n2 request2) st)) /\
    <["ping" := v2]> (<["ip" := v1]> (results st)) =
    <["ip" := v1]> (<["ping" := v2]> (results st)).
Proof.
  intros w st.
  apply (@probes_commute sample_host w st "ip" "ip" "ping" "ping" default_retries);
    [discriminate | discriminate | unfold default_retries; lia].
Defined.

End ProbeMoreExamples.
